(** * ClawCloud auto-login script (ql-docker.py): a shallow embedding

    The script is one linear walk through a browser session.  Python
    strings are sequences of Unicode code points; every call that leaves
    the interpreter (Selenium, pyotp, requests) is answered by an
    abstract world and may raise; [try]/[except]/[finally] and the early
    [return]s of [run_login] are kept as they are written. *)

From Stdlib Require Import String Ascii NArith List Bool Lia DecimalString Sorted.
From stdpp Require Import base option list gmap sorting.
Import ListNotations.

Local Open Scope N_scope.

(** ** Python strings *)

(** A [str] is a list of code points. *)
Abbreviation str := (list N).

(** String literals of the source are written in UTF-8; [py] decodes
    them into code points. *)
Fixpoint utf8_decode (bs : list N) : str :=
  match bs with
  | [] => []
  | b :: r =>
    if b <? 0x80 then b :: utf8_decode r
    else if b <? 0xE0 then
      match r with
      | b1 :: r1 => ((b - 0xC0) * 64 + (b1 - 0x80)) :: utf8_decode r1
      | _ => []
      end
    else if b <? 0xF0 then
      match r with
      | b1 :: b2 :: r2 =>
        ((b - 0xE0) * 4096 + (b1 - 0x80) * 64 + (b2 - 0x80)) :: utf8_decode r2
      | _ => []
      end
    else
      match r with
      | b1 :: b2 :: b3 :: r3 =>
        ((b - 0xF0) * 262144 + (b1 - 0x80) * 4096 + (b2 - 0x80) * 64 + (b3 - 0x80))
          :: utf8_decode r3
      | _ => []
      end
  end.

Definition py (s : string) : str :=
  utf8_decode (List.map N_of_ascii (list_ascii_of_string s)).
Arguments py : simpl never.

(** [bool(s)] for a string: non-empty. *)
Definition truthy {A} (s : list A) : bool :=
  match s with [] => false | _ => true end.

Fixpoint startswith (prefix s : str) : bool :=
  match prefix, s with
  | [], _ => true
  | p :: prefix', c :: s' => (p =? c) && startswith prefix' s'
  | _ :: _, [] => false
  end.

(** [needle in s]. *)
Fixpoint contains (needle s : str) : bool :=
  startswith needle s ||
  match s with
  | [] => false
  | _ :: s' => contains needle s'
  end.

(** [s.split(sep, 1)] for a one-character separator that occurs in [s]:
    the text before the first occurrence and the text after it. *)
Fixpoint split1 (sep : N) (s : str) : str * str :=
  match s with
  | [] => ([], [])
  | c :: s' =>
    if c =? sep then ([], s')
    else let '(a, b) := split1 sep s' in (c :: a, b)
  end.

(** [str.isspace] on one code point. *)
Definition isspace (c : N) : bool :=
  ((0x09 <=? c) && (c <=? 0x0D)) || ((0x1C <=? c) && (c <=? 0x20))
  || (c =? 0x85) || (c =? 0xA0) || (c =? 0x1680)
  || ((0x2000 <=? c) && (c <=? 0x200A))
  || (c =? 0x2028) || (c =? 0x2029) || (c =? 0x202F) || (c =? 0x205F)
  || (c =? 0x3000).

Fixpoint lstrip (s : str) : str :=
  match s with
  | [] => []
  | c :: s' => if isspace c then lstrip s' else s
  end.

Definition rstrip (s : str) : str := rev (lstrip (rev s)).

(** [s.strip()] *)
Definition strip (s : str) : str := rstrip (lstrip s).

(** ** Exceptions *)

Record Exception := mkException {
  exc_class : str;   (* the class name *)
  exc_text : str     (* [str(e)] *)
}.

Definition IndexError : Exception :=
  mkException (py "IndexError") (py "string index out of range").

(** ** [mask_account] *)

Definition mask_account (account : str) : Exception + str :=
  if negb (truthy account) || negb (contains (py "@") account) then
    inr (py "unknown")
  else
    let '(name, domain) := split1 64 account in
    if (N.of_nat (length name) <=? 3) then
      match name with
      | [] => inl IndexError                       (* name[0] *)
      | c :: _ => inr ([c] ++ py "***@" ++ domain)
      end
    else
      inr (take 3 name ++ py "***@" ++ domain).

(** ** Selenium, pyotp and requests: the calls that leave the interpreter *)

Abbreviation WebDriver := N.
Abbreviation WebElement := N.

Inductive By :=
| XPATH (value : str)
| ID (value : str)
| CSS_SELECTOR (value : str).

Inductive expected_condition :=
| element_to_be_clickable (locator : By)
| presence_of_element_located (locator : By).

(** The Python values handed to Selenium options and to the request
    body: strings, booleans and lists of strings. *)
Inductive value :=
| VStr (s : str)
| VBool (b : bool)
| VList (l : list str).

Record Options := mkOptions {
  arguments : list str;
  experimental_options : list (str * value);
  binary_location : str
}.

Definition Options_new : Options := mkOptions [] [] [].

Definition add_argument (a : str) (o : Options) : Options :=
  mkOptions (arguments o ++ [a]) (experimental_options o) (binary_location o).

Definition add_experimental_option (k : str) (v : value) (o : Options) : Options :=
  mkOptions (arguments o) (experimental_options o ++ [(k, v)]) (binary_location o).

Definition set_binary_location (p : str) (o : Options) : Options :=
  mkOptions (arguments o) (experimental_options o) p.

Inductive call :=
| webdriver_Chrome (service : option str) (options : Options)
| execute_script (d : WebDriver) (script : str) (args : list WebElement)
| get (d : WebDriver) (url : str)
| until (d : WebDriver) (timeout : N) (cond : expected_condition)
| find_element (d : WebDriver) (locator : By)
| click (e : WebElement)
| clear (e : WebElement)
| send_keys (e : WebElement) (keys : str)
| current_url (d : WebDriver)
| page_source (d : WebDriver)
| save_screenshot (d : WebDriver) (path : str)
| quit (d : WebDriver)
| TOTP_now (secret : str)
| requests_post (url : str) (json : list (str * value)) (timeout : N).

Definition result_of (c : call) : Type :=
  match c with
  | webdriver_Chrome _ _ => WebDriver
  | until _ _ _ | find_element _ _ => WebElement
  | current_url _ | page_source _ | TOTP_now _ => str
  | save_screenshot _ _ => bool
  | requests_post _ _ _ => N            (* the response's status_code *)
  | _ => unit
  end.

(** The interpreter's surroundings: the state of everything outside the
    script and its answer to each call (a value or a raised exception),
    and the Unicode case mapping behind [str.lower]. *)
Class Platform := {
  World : Type;
  respond : forall c : call, World -> World * (Exception + result_of c);
  str_lower : str -> str
}.

(** What the process finds when it starts: its environment variables,
    the files present, and the clock reading formatted by
    [datetime.now().strftime("%Y-%m-%d %H:%M:%S")]. *)
Record Host := mkHost {
  environ : gmap str str;
  path_exists : str -> bool;
  strftime_now : str
}.

(** [os.environ.get(key, "")] *)
Definition environ_get (h : Host) (key : str) : str :=
  default [] (environ h !! key).

(** ** What a run does, in order *)

Inductive level := INFO | SUCCESS | WARNING | ERROR | EXCEPTION.

(** Sleeps: [secs] and the bounds of [uniform] count tenths of a second,
    the bounds of [randint] whole seconds. *)
Inductive duration :=
| secs (tenths : N)
| randint (lo hi : N)
| uniform (lo hi : N).

Inductive event :=
| Called (c : call)
| Logged (l : level) (text : str)
| Slept (d : duration)
| SendTg (text : str).      (* send_tg_message(text) was entered *)

(** ** The monad: state, exceptions and early return *)

Record State `{Platform} := mkState {
  world : World;
  trace : list event;
  driver : option WebDriver     (* the local variable of run_login *)
}.
Arguments mkState {_} world trace driver.

Inductive completion (A : Type) :=
| Normal (a : A)
| Return (v : bool)
| Raise (e : Exception).
Arguments Normal {A} a.
Arguments Return {A} v.
Arguments Raise {A} e.

Definition M `{Platform} (A : Type) : Type := State -> State * completion A.

Section Monad.
Context `{Platform}.

Definition ret {A} (a : A) : M A := fun s => (s, Normal a).

Definition bind {A B} (m : M A) (k : A -> M B) : M B := fun s =>
  match m s with
  | (s1, Normal a) => k a s1
  | (s1, Return v) => (s1, Return v)
  | (s1, Raise e) => (s1, Raise e)
  end.

Definition return_ {A} (v : bool) : M A := fun s => (s, Return v).

Definition raise {A} (e : Exception) : M A := fun s => (s, Raise e).

Definition lift {A} (r : Exception + A) : M A :=
  match r with inl e => raise e | inr a => ret a end.

Definition emit (ev : event) : M unit := fun s =>
  (mkState (world s) (trace s ++ [ev]) (driver s), Normal tt).

Definition do (c : call) : M (result_of c) := fun s =>
  let '(w, r) := respond c (world s) in
  (mkState w (trace s ++ [Called c]) (driver s),
   match r with inl e => Raise e | inr a => Normal a end).

Definition get_driver : M (option WebDriver) := fun s => (s, Normal (driver s)).

Definition set_driver (d : option WebDriver) : M unit := fun s =>
  (mkState (world s) (trace s) d, Normal tt).

(** [try: body except Exception as e: handler] *)
Definition try_except {A} (body : M A) (handler : Exception -> M A) : M A :=
  fun s =>
    match body s with
    | (s1, Raise e) => handler e s1
    | r => r
    end.

(** [try: body finally: final] *)
Definition try_finally {A} (body : M A) (final : M unit) : M A := fun s =>
  let '(s1, c) := body s in
  match final s1 with
  | (s2, Normal _) => (s2, c)
  | (s2, Return v) => (s2, Return v)
  | (s2, Raise e) => (s2, Raise e)
  end.
End Monad.

Declare Scope py_scope.
Delimit Scope py_scope with py.
Notation "x <- m ;; k" := (bind m (fun x => k))
  (at level 100, m at next level, right associativity) : py_scope.
Notation "m ;; k" := (bind m (fun _ => k))
  (at level 100, right associativity) : py_scope.

Local Open Scope py_scope.

Section Script.
Context `{Platform}.

Definition log (l : level) (text : str) : M unit := emit (Logged l text).

(** [logger.exception(e)] *)
Definition log_exception (e : Exception) : M unit :=
  emit (Logged EXCEPTION (exc_text e)).

Definition sleep (d : duration) : M unit := emit (Slept d).

(** [str(n)] for a non-negative integer *)
Definition decimal (n : N) : str := py (NilZero.string_of_uint (N.to_uint n)).

(** [for x in l: body(x)] *)
Fixpoint for_in {A} (l : list A) (body : A -> M unit) : M unit :=
  match l with
  | [] => ret tt
  | x :: l' => body x ;; for_in l' body
  end.

(** *** [send_tg_message] *)

Definition send_tg_message (h : Host) (text : str) : M unit :=
  emit (SendTg text) ;;
  let bot_token := strip (environ_get h (py "TG_BOT_TOKEN")) in
  let chat_id := strip (environ_get h (py "TG_CHAT_ID")) in
  if negb (truthy bot_token) || negb (truthy chat_id) then
    log INFO (py "未配置 TG_BOT_TOKEN / TG_CHAT_ID，跳过 TG 通知")
  else
    try_except
      (status_code <- do (requests_post
          (py "https://api.telegram.org/bot" ++ bot_token ++ py "/sendMessage")
          [(py "chat_id", VStr chat_id);
           (py "text", VStr text);
           (py "disable_web_page_preview", VBool true)]
          10) ;;
       if status_code =? 200 then
         log INFO (py "TG 通知发送成功")
       else
         log WARNING (py "TG 通知发送失败 HTTP=" ++ decimal status_code))
      (fun e => log WARNING (py "TG 消息发送失败: " ++ exc_text e)).

(** *** [find_chrome], [find_chromedriver] *)

Definition chrome_candidates : list str :=
  [py "/usr/bin/chromium";
   py "/usr/bin/chromium-browser";
   py "/usr/bin/google-chrome";
   py "/usr/bin/google-chrome-stable"].

Definition chromedriver_candidates : list str :=
  [py "/usr/bin/chromedriver";
   py "/usr/local/bin/chromedriver"].

(** [for path in candidates: if os.path.exists(path): return path]
    and [return None] after the loop *)
Fixpoint first_existing (h : Host) (candidates : list str) : option str :=
  match candidates with
  | [] => None
  | path :: rest =>
    if path_exists h path then Some path else first_existing h rest
  end.

Definition find_chrome (h : Host) : option str :=
  first_existing h chrome_candidates.

Definition find_chromedriver (h : Host) : option str :=
  first_existing h chromedriver_candidates.

(** *** The messages of [run_login] *)

Definition account_and_time (masked_user now_time : str) : str :=
  py "👤 账号：" ++ masked_user ++ [10] ++
  py "🕒 时间：" ++ now_time ++ [10].

Definition failure_head : str := py "❌ ClawCloud 登录失败" ++ [10; 10].

Definition msg_missing_credentials (masked_user now_time : str) : str :=
  failure_head ++ account_and_time masked_user now_time ++
  py "⚠️ 原因：缺少 GH_USERNAME 或 GH_PASSWORD".

Definition msg_no_chromium (masked_user now_time : str) : str :=
  failure_head ++ account_and_time masked_user now_time ++
  py "⚠️ 原因：未找到 Chromium 可执行文件".

Definition msg_2fa_no_secret (masked_user now_time : str) : str :=
  py "🚨 ClawCloud 登录中断（致命）" ++ [10; 10] ++
  account_and_time masked_user now_time ++
  py "❌ 检测到 2FA 但未配置 GH_2FA_SECRET".

Definition msg_2fa_failed (masked_user now_time : str) (e : Exception) : str :=
  failure_head ++ account_and_time masked_user now_time ++
  py "⚠️ 原因：2FA 验证码填写失败" ++ [10] ++ exc_text e.

Definition msg_success (masked_user now_time final_url : str) : str :=
  py "🎉 ClawCloud 登录成功" ++ [10; 10] ++
  account_and_time masked_user now_time ++
  py "🌐 控制台：" ++ [10] ++ final_url.

Definition msg_failure (masked_user now_time : str) : str :=
  failure_head ++ account_and_time masked_user now_time ++
  py "⚠️ 原因：GitHub 登录或 2FA 未通过" ++ [10; 10] ++
  py "📸 已生成调试截图：/ql/data/scripts/clawcloud_result.png".

Definition msg_exception (masked_user now_time : str) (e : Exception) : str :=
  py "❌ ClawCloud 登录异常" ++ [10; 10] ++
  account_and_time masked_user now_time ++
  py "⚠️ 错误：" ++ exc_text e.
End Script.

(** ** [run_login] *)

Definition Keys_RETURN : str := [0xE006].

Definition target_url : str := py "https://ap-northeast-1.run.claw.cloud/".

Definition result_png : str := py "/ql/data/scripts/clawcloud_result.png".

Definition error_png : str := py "/ql/data/scripts/clawcloud_error.png".

Definition submit_selectors : list str :=
  [py "button[type='submit']";
   py "input[type='submit']";
   py "button.btn-primary"].

Definition chrome_options (chrome_path : str) : Options :=
  set_binary_location chrome_path
    (add_experimental_option (py "useAutomationExtension") (VBool false)
    (add_experimental_option (py "excludeSwitches") (VList [py "enable-automation"])
    (add_argument (py "--window-size=1920,1080")
    (add_argument (py "--disable-blink-features=AutomationControlled")
    (add_argument (py "--disable-gpu")
    (add_argument (py "--disable-dev-shm-usage")
    (add_argument (py "--no-sandbox")
    (add_argument (py "--headless")
     Options_new)))))))).

(** The decision of lines 332-345, on the final URL and the lowercased
    page source. *)
Definition classify (final_url page_text : str) : bool :=
  let is_success := false in
  let is_success :=
    if contains (py "app launchpad") page_text || contains (py "devbox") page_text
    then true else is_success in
  let is_success :=
    if contains (py "private-team") final_url || contains (py "console") final_url
    then true else is_success in
  let is_success :=
    if negb (contains (py "signin") final_url)
       && negb (contains (py "github.com") final_url)
    then true else is_success in
  is_success.

Section Login.
Context `{Platform}.
Variable h : Host.
Variables username password totp_secret now_time masked_user : str.

(** Lines 149-163: start the browser and hide the webdriver flag. *)
Definition start_browser (options : Options) : M WebDriver :=
  let chromedriver_path := find_chromedriver h in
  d <- match chromedriver_path with
       | Some chromedriver_path =>
         log INFO (py "使用 ChromeDriver 路径: " ++ chromedriver_path) ;;
         d <- do (webdriver_Chrome (Some chromedriver_path) options) ;;
         set_driver (Some d) ;;
         ret d
       | None =>
         log WARNING (py "未找到 chromedriver,尝试自动查找") ;;
         d <- do (webdriver_Chrome None options) ;;
         set_driver (Some d) ;;
         ret d
       end ;;
  log SUCCESS (py "浏览器启动成功") ;;
  do (execute_script d
    (py "Object.defineProperty(navigator, 'webdriver', {get: () => undefined})") []) ;;
  ret d.

(** Lines 166-169. *)
Definition visit (d : WebDriver) : M unit :=
  log INFO (py "[Step 2] 正在访问: " ++ target_url) ;;
  do (get d target_url) ;;
  sleep (randint 3 5).

(** Lines 172-181. *)
Definition click_github (d : WebDriver) : M unit :=
  log INFO (py "[Step 3] 寻找 GitHub 登录按钮...") ;;
  try_except
    (github_btn <- do (until d 10 (element_to_be_clickable
                         (XPATH (py "//button[contains(text(), 'GitHub')]")))) ;;
     do (click github_btn) ;;
     log INFO (py "已点击 GitHub 按钮") ;;
     sleep (randint 2 4))
    (fun e => log WARNING (py "未找到 GitHub 按钮: " ++ exc_text e)).

(** Line 188: [current_url] is read once for each conjunct. *)
Definition on_login_page (d : WebDriver) : M bool :=
  u1 <- do (current_url d) ;;
  if contains (py "github.com") u1 then
    u2 <- do (current_url d) ;;
    ret (contains (py "login") u2)
  else ret false.

(** Lines 184-213. *)
Definition fill_login (d : WebDriver) : M unit :=
  log INFO (py "[Step 4] 等待跳转到 GitHub...") ;;
  sleep (secs 30) ;;
  b <- on_login_page d ;;
  if b : bool then
    log INFO (py "检测到 GitHub 登录页,填写账号密码") ;;
    try_except
      (username_field <- do (until d 10 (presence_of_element_located
                               (ID (py "login_field")))) ;;
       do (clear username_field) ;;
       do (send_keys username_field username) ;;
       sleep (uniform 5 15) ;;
       password_field <- do (find_element d (ID (py "password"))) ;;
       do (clear password_field) ;;
       do (send_keys password_field password) ;;
       sleep (uniform 5 15) ;;
       login_btn <- do (find_element d (CSS_SELECTOR (py "input[name='commit']"))) ;;
       do (click login_btn) ;;
       log INFO (py "已提交登录表单") ;;
       sleep (randint 3 5))
      (fun e => log ERROR (py "填写登录表单失败: " ++ exc_text e))
  else ret tt.

(** Line 217: [current_url] is read again for the second disjunct. *)
Definition on_2fa_page (d : WebDriver) : M bool :=
  u1 <- do (current_url d) ;;
  if contains (py "two-factor") u1 then ret true
  else
    u2 <- do (current_url d) ;;
    ret (contains (py "two_factor") u2).

(** Lines 264-272: the loop over the submit selectors; the result is
    [submitted]. *)
Fixpoint click_submit (d : WebDriver) (selectors : list str) : M bool :=
  match selectors with
  | [] => ret false
  | selector :: rest =>
    submitted <- try_except
      (submit_btn <- do (find_element d (CSS_SELECTOR selector)) ;;
       do (click submit_btn) ;;
       log INFO (py "已点击提交按钮: " ++ selector) ;;
       ret true)                                   (* break *)
      (fun _ => ret false) ;;                      (* continue *)
    if submitted : bool then ret true else click_submit d rest
  end.

(** Lines 281-289: the handler of the inner [try], a last attempt
    through the form. *)
Definition js_submit (d : WebDriver) (e : Exception) : M unit :=
  log WARNING (py "提交方式失败,尝试其他方法: " ++ exc_text e) ;;
  try_except
    (totp_field <- do (find_element d (ID (py "app_totp"))) ;;
     do (execute_script d (py "arguments[0].form.submit();") [totp_field]) ;;
     log INFO (py "已通过 JS 提交表单"))
    (fun _ => ret tt).

(** Lines 255-289. *)
Definition submit_totp (d : WebDriver) : M unit :=
  try_except
    (submitted <- click_submit d submit_selectors ;;
     if submitted : bool then ret tt
     else
       totp_field <- do (find_element d (ID (py "app_totp"))) ;;
       do (send_keys totp_field Keys_RETURN) ;;
       log INFO (py "已按回车提交"))
    (js_submit d).

(** Lines 234-291: the body of the 2FA [try]. *)
Definition enter_totp (d : WebDriver) : M unit :=
  token <- do (TOTP_now totp_secret) ;;
  log INFO (py "生成 2FA 验证码: " ++ token) ;;
  totp_field <- do (until d 10 (presence_of_element_located (ID (py "app_totp")))) ;;
  do (clear totp_field) ;;
  sleep (secs 5) ;;
  for_in token (fun char =>
    do (send_keys totp_field [char]) ;;
    sleep (secs 1)) ;;
  log INFO (py "已输入 2FA 验证码") ;;
  sleep (secs 10) ;;
  submit_totp d ;;
  sleep (randint 3 5).

(** Lines 216-303. *)
Definition check_2fa (d : WebDriver) : M unit :=
  sleep (secs 20) ;;
  b <- on_2fa_page d ;;
  if b : bool then
    log INFO (py "[Step 5] 检测到 2FA 验证") ;;
    (if negb (truthy totp_secret) then
       let msg := msg_2fa_no_secret masked_user now_time in
       log ERROR msg ;;
       send_tg_message h msg ;;
       do (save_screenshot d (py "/ql/data/scripts/clawcloud_2fa_error.png")) ;;
       return_ false
     else ret tt) ;;
    try_except
      (enter_totp d)
      (fun e =>
         let msg := msg_2fa_failed masked_user now_time e in
         log ERROR msg ;;
         send_tg_message h msg ;;
         do (save_screenshot d (py "/ql/data/scripts/clawcloud_2fa_fail.png")) ;;
         return_ false)
  else ret tt.

(** Lines 306-317. *)
Definition check_authorize (d : WebDriver) : M unit :=
  sleep (secs 20) ;;
  u <- do (current_url d) ;;
  if contains (py "authorize") (str_lower u) then
    log INFO (py "[Step 6] 检测到授权页面") ;;
    try_except
      (authorize_btn <- do (until d 5 (element_to_be_clickable
                              (XPATH (py "//button[contains(text(), 'Authorize')]")))) ;;
       do (click authorize_btn) ;;
       log INFO (py "已点击授权按钮") ;;
       sleep (randint 2 4))
      (fun e => log WARNING (py "未找到授权按钮: " ++ exc_text e))
  else ret tt.

(** Lines 320-335: wait, then read the final URL and the page. *)
Definition read_result (d : WebDriver) : M (str * str) :=
  log INFO (py "[Step 7] 等待跳转回 ClawCloud 控制台...") ;;
  sleep (secs 200) ;;
  final_url <- do (current_url d) ;;
  log INFO (py "最终 URL: " ++ final_url) ;;
  do (save_screenshot d result_png) ;;
  log INFO (py "已保存截图: /ql/data/scripts/clawcloud_result.png") ;;
  page_source <- do (page_source d) ;;
  ret (final_url, str_lower page_source).

(** Lines 336-368: decide and report. *)
Definition report_result (final_url page_text : str) : M unit :=
  let is_success := classify final_url page_text in
  if is_success then
    let msg := msg_success masked_user now_time final_url in
    log SUCCESS msg ;;
    send_tg_message h msg ;;
    return_ true
  else
    let msg := msg_failure masked_user now_time in
    log ERROR msg ;;
    send_tg_message h msg ;;
    return_ false.

(** Lines 148-213: from the start of the outer [try] to the 2FA check. *)
Definition flow_to_2fa (options : Options) : M WebDriver :=
  d <- start_browser options ;;
  visit d ;;
  click_github d ;;
  fill_login d ;;
  ret d.

(** Lines 148-335: from the start of the outer [try] to the reading of
    the final URL and page. *)
Definition flow_to_result (options : Options) : M (str * str) :=
  d <- flow_to_2fa options ;;
  check_2fa d ;;
  check_authorize d ;;
  read_result d.

(** Lines 148-368: the body of the outer [try]. *)
Definition login_flow (options : Options) : M unit :=
  r <- flow_to_result options ;;
  let '(final_url, page_text) := r in
  report_result final_url page_text.

(** Lines 370-387: the outer [except Exception as e]. *)
Definition on_exception (e : Exception) : M unit :=
  let msg := msg_exception masked_user now_time e in
  log ERROR msg ;;
  log_exception e ;;
  send_tg_message h msg ;;
  drv <- get_driver ;;
  match drv with
  | Some d =>
    try_except
      (do (save_screenshot d error_png) ;; ret tt)
      (fun _ => ret tt)
  | None => ret tt
  end ;;
  return_ false.

(** Lines 389-395: the [finally]. *)
Definition close_browser : M unit :=
  drv <- get_driver ;;
  match drv with
  | Some d =>
    try_except
      (do (quit d) ;; log INFO (py "浏览器已关闭"))
      (fun _ => ret tt)
  | None => ret tt
  end.

(** Lines 146-395: the whole [try] statement. *)
Definition browser_session (options : Options) : M unit :=
  set_driver None ;;
  try_finally (try_except (login_flow options) on_exception) close_browser.
End Login.

Section RunLogin.
Context `{Platform}.

(** Lines 93-144: everything before the outer [try]; it ends the call
    early or hands on the masked account and the browser options. *)
Definition preamble (h : Host) : M (str * Options) :=
  let username := strip (environ_get h (py "GH_USERNAME")) in
  let password := strip (environ_get h (py "GH_PASSWORD")) in
  let now_time := strftime_now h in
  masked_user <- lift (mask_account username) ;;
  if negb (truthy username) || negb (truthy password) then
    let msg := msg_missing_credentials masked_user now_time in
    log ERROR msg ;;
    send_tg_message h msg ;;
    return_ false
  else
    log INFO (replicate 60 61) ;;
    log INFO (py "🚀 ClawCloud 自动登录开始") ;;
    log INFO (py "👤 账号：" ++ masked_user) ;;
    log INFO (py "🕒 时间：" ++ now_time) ;;
    log INFO (replicate 60 61) ;;
    log INFO (py "[Step 1] 配置浏览器...") ;;
    let chrome_path := find_chrome h in
    match chrome_path with
    | None =>
      let msg := msg_no_chromium masked_user now_time in
      log ERROR msg ;;
      send_tg_message h msg ;;
      return_ false
    | Some chrome_path =>
      log INFO (py "使用 Chrome 路径: " ++ chrome_path) ;;
      ret (masked_user, chrome_options chrome_path)
    end.

Definition run_login_body (h : Host) : M unit :=
  let username := strip (environ_get h (py "GH_USERNAME")) in
  let password := strip (environ_get h (py "GH_PASSWORD")) in
  let totp_secret := strip (environ_get h (py "GH_2FA_SECRET")) in
  let now_time := strftime_now h in
  x <- preamble h ;;
  let '(masked_user, options) := x in
  browser_session h username password totp_secret now_time masked_user options.

(** A call of [run_login()] in a fresh frame: the returned value, [None]
    when the body falls off its end, or the exception that escapes. *)
Definition run_login (h : Host) (w : World) : State * (Exception + option bool) :=
  match run_login_body h (mkState w [] None) with
  | (s, Normal _) => (s, inr None)
  | (s, Return v) => (s, inr (Some v))
  | (s, Raise e) => (s, inl e)
  end.

(** The state in which [run_login] is entered. *)
Definition fresh (w : World) : State := mkState w [] None.
End RunLogin.

(** ** A reference site

    A small platform on which the script can be run: the pages the login
    walk passes through, with the elements each page offers.  [quirks]
    switches on the failures used in the examples. *)

Inductive page :=
| Blank | ClawSignin | GithubLogin | GithubTwoFactor | GithubAuthorize | Console.

Record quirks := mkQuirks {
  chrome_fails : bool;        (* the browser cannot be started *)
  offline : bool;             (* navigation fails *)
  no_submit_button : bool;    (* the 2FA page has no submit button *)
  needs_2fa : bool            (* the account has 2FA switched on *)
}.

Definition usual : quirks := mkQuirks false false false true.
Definition broken_chrome : quirks := mkQuirks true false false true.
Definition no_network : quirks := mkQuirks false true false true.
Definition no_button : quirks := mkQuirks false false true true.

Definition page_url (p : page) : str :=
  match p with
  | Blank => py "data:,"
  | ClawSignin => py "https://ap-northeast-1.run.claw.cloud/signin"
  | GithubLogin => py "https://github.com/login?client_id=1"
  | GithubTwoFactor => py "https://github.com/sessions/two-factor/app"
  | GithubAuthorize => py "https://github.com/login/oauth/authorize?client_id=1"
  | Console => py "https://ap-northeast-1.run.claw.cloud/"
  end.

Definition page_html (p : page) : str :=
  match p with
  | Console => py "<html><body>App Launchpad Devbox</body></html>"
  | _ => py "<html><body>Sign in</body></html>"
  end.

(** The element a locator finds on a page, if any. *)
Definition locate (q : quirks) (p : page) (l : By) : option WebElement :=
  match p, l with
  | ClawSignin, XPATH v =>
    if bool_decide (v = py "//button[contains(text(), 'GitHub')]") then Some 1 else None
  | GithubLogin, ID v =>
    if bool_decide (v = py "login_field") then Some 2
    else if bool_decide (v = py "password") then Some 3 else None
  | GithubLogin, CSS_SELECTOR v =>
    if bool_decide (v = py "input[name='commit']") then Some 4 else None
  | GithubTwoFactor, ID v =>
    if bool_decide (v = py "app_totp") then Some 5 else None
  | GithubTwoFactor, CSS_SELECTOR v =>
    if no_submit_button q then None
    else if bool_decide (v = py "button[type='submit']") then Some 6 else None
  | GithubAuthorize, XPATH v =>
    if bool_decide (v = py "//button[contains(text(), 'Authorize')]") then Some 7 else None
  | _, _ => None
  end.

(** Where a click on an element leads. *)
Definition after_click (q : quirks) (p : page) (e : WebElement) : page :=
  match p with
  | ClawSignin => if e =? 1 then GithubLogin else p
  | GithubLogin =>
    if e =? 4 then (if needs_2fa q then GithubTwoFactor else GithubAuthorize) else p
  | GithubTwoFactor => if e =? 6 then GithubAuthorize else p
  | GithubAuthorize => if e =? 7 then Console else p
  | _ => p
  end.

Definition NoSuchElementException : Exception :=
  mkException (py "NoSuchElementException") (py "Message: no such element").

Definition TimeoutException : Exception :=
  mkException (py "TimeoutException") (py "Message: ").

Definition WebDriverException : Exception :=
  mkException (py "WebDriverException") (py "Message: unknown error").

Definition site_respond (q : quirks) (c : call) (p : page)
  : page * (Exception + result_of c) :=
  match c return page * (Exception + result_of c) with
  | webdriver_Chrome _ _ =>
    if chrome_fails q then (p, inl WebDriverException) else (Blank, inr 100)
  | execute_script _ _ _ => (p, inr tt)
  | get _ _ =>
    if offline q then (p, inl WebDriverException) else (ClawSignin, inr tt)
  | until _ _ (element_to_be_clickable l)
  | until _ _ (presence_of_element_located l) =>
    match locate q p l with
    | Some e => (p, inr e)
    | None => (p, inl TimeoutException)
    end
  | find_element _ l =>
    match locate q p l with
    | Some e => (p, inr e)
    | None => (p, inl NoSuchElementException)
    end
  | click e => (after_click q p e, inr tt)
  | clear _ => (p, inr tt)
  | send_keys _ _ => (p, inr tt)
  | current_url _ => (p, inr (page_url p))
  | page_source _ => (p, inr (page_html p))
  | save_screenshot _ _ => (p, inr true)
  | quit _ => (p, inr tt)
  | TOTP_now _ => (p, inr (py "492039"))
  | requests_post _ _ _ => (p, inr 200)
  end.

(** [str.lower] on ASCII letters, enough for the pages of the site. *)
Definition ascii_lower (s : str) : str :=
  List.map (fun c => if (65 <=? c) && (c <=? 90) then c + 32 else c) s.

Definition site (q : quirks) : Platform :=
  {| World := page; respond := site_respond q; str_lower := ascii_lower |}.

Definition host_of (vars : list (str * str)) (files : list str) : Host :=
  mkHost (list_to_map vars) (fun p => bool_decide (p ∈ files)) (py "2026-01-01 08:00:00").

Definition typical_host : Host :=
  host_of [(py "GH_USERNAME", py "octocat@example.com");
           (py "GH_PASSWORD", py " hunter2 ");
           (py "GH_2FA_SECRET", py "JBSWY3DPEHPK3PXP");
           (py "TG_BOT_TOKEN", py "123:abc");
           (py "TG_CHAT_ID", py "42")]
          [py "/usr/bin/chromium"; py "/usr/bin/chromedriver"].

Definition typical_host_other_password : Host :=
  host_of [(py "GH_USERNAME", py "octocat@example.com");
           (py "GH_PASSWORD", py "correct horse battery staple");
           (py "GH_2FA_SECRET", py "JBSWY3DPEHPK3PXP");
           (py "TG_BOT_TOKEN", py "123:abc");
           (py "TG_CHAT_ID", py "42")]
          [py "/usr/bin/chromium"; py "/usr/bin/chromedriver"].

Definition host_without_secret : Host :=
  host_of [(py "GH_USERNAME", py "octocat@example.com");
           (py "GH_PASSWORD", py "hunter2");
           (py "GH_2FA_SECRET", py "  ")]
          [py "/usr/bin/chromium"; py "/usr/bin/chromedriver"].

Definition host_without_chrome : Host :=
  host_of [(py "GH_USERNAME", py "octocat@example.com");
           (py "GH_PASSWORD", py "hunter2")]
          [py "/usr/bin/chromedriver"].

Definition host_without_chromedriver : Host :=
  host_of [(py "GH_USERNAME", py "octocat@example.com");
           (py "GH_PASSWORD", py "hunter2")]
          [py "/usr/bin/google-chrome"].

(** A GitHub handle written with a leading "@", and no password. *)
Definition host_with_handle : Host :=
  host_of [(py "GH_USERNAME", py "@octocat")]
          [py "/usr/bin/chromium"; py "/usr/bin/chromedriver"].

(** The texts handed to [send_tg_message], in order. *)
Definition notifications (t : list event) : list str :=
  omap (fun ev => match ev with SendTg text => Some text | _ => None end) t.

(** ** Specifications of computations

    [spec m Q]: from every state, [m] extends the trace by some events
    [t] and stops with a completion [c] such that [Q t c]. *)

Definition spec `{Platform} {A} (m : M A)
    (Q : list event -> completion A -> Prop) : Prop :=
  forall s, exists t, trace (m s).1 = trace s ++ t /\ Q t (m s).2.

(** [emits P m]: every event [m] adds to the trace satisfies [P]. *)
Definition emits `{Platform} {A} (P : event -> Prop) (m : M A) : Prop :=
  spec m (fun t _ => Forall P t).

(** [falls_through m]: [m] always completes normally. *)
Definition falls_through `{Platform} {A} (m : M A) : Prop :=
  forall s, exists a, (m s).2 = Normal a.

(** What [send_tg_message] does after it is entered: it logs and posts. *)
Definition tg_effect (ev : event) : Prop :=
  match ev with
  | Logged _ _ | Called (requests_post _ _ _) => True
  | _ => False
  end.

(** The variables [run_login] reads at its start. *)
Definition username_of (h : Host) : str := strip (environ_get h (py "GH_USERNAME")).
Definition password_of (h : Host) : str := strip (environ_get h (py "GH_PASSWORD")).
Definition totp_secret_of (h : Host) : str := strip (environ_get h (py "GH_2FA_SECRET")).

(** The log lines 111-118 and 132. *)
Definition banner (masked_user now_time chrome_path : str) : list event :=
  [Logged INFO (replicate 60 61);
   Logged INFO (py "🚀 ClawCloud 自动登录开始");
   Logged INFO (py "👤 账号：" ++ masked_user);
   Logged INFO (py "🕒 时间：" ++ now_time);
   Logged INFO (replicate 60 61);
   Logged INFO (py "[Step 1] 配置浏览器...");
   Logged INFO (py "使用 Chrome 路径: " ++ chrome_path)].

(** [first_found h l r]: [r] is the first path of [l] that exists, or
    [None] when no path of [l] exists. *)
Definition first_found (h : Host) (l : list str) (r : option str) : Prop :=
  match r with
  | Some p =>
    exists i : nat, l !! i = Some p /\ path_exists h p = true /\
      forall (j : nat) q, (j < i)%nat -> l !! j = Some q -> path_exists h q = false
  | None => forall p, In p l -> path_exists h p = false
  end.

(** [visits ev m]: every run of [m] adds the event [ev] to the trace. *)
Definition visits `{Platform} {A} (ev : event) (m : M A) : Prop :=
  spec m (fun t _ => In ev t).

(** Whether a trace holds an attempt to take a screenshot. *)
Definition screenshot_attempted (t : list event) : bool :=
  existsb (fun ev => match ev with
                     | Called (save_screenshot _ _) => true
                     | _ => false
                     end) t.

(** Whether a trace holds a start of the browser. *)
Definition browser_started (t : list event) : bool :=
  existsb (fun ev => match ev with
                     | Called (webdriver_Chrome _ _) => true
                     | _ => false
                     end) t.

(** What the [finally] block may do. *)
Definition closing (ev : event) : Prop :=
  match ev with
  | Called (quit _) | Logged INFO _ => True
  | _ => False
  end.

(** An environment variable that is absent or holds only whitespace. *)
Definition absent_or_blank (h : Host) (key : str) : Prop :=
  match environ h !! key with
  | None => True
  | Some v => Forall (fun c => isspace c = true) v
  end.

(** The value of a finished call of [run_login], from the completion of
    its body. *)
Definition finish `{Platform} (r : State * completion unit)
  : State * (Exception + option bool) :=
  match r with
  | (s, Normal _) => (s, inr None)
  | (s, Return v) => (s, inr (Some v))
  | (s, Raise e) => (s, inl e)
  end.

(** The keys sent to elements, in order: the element and the text. *)
Definition typed_keys (t : list event) : list (WebElement * str) :=
  omap (fun ev => match ev with
                  | Called (send_keys e keys) => Some (e, keys)
                  | _ => None
                  end) t.

(** A text sent to one element one character at a time. *)
Definition one_by_one (field : WebElement) (text : str) : list (WebElement * str) :=
  List.map (fun c => (field, [c])) text.

(** Whether a trace holds the log line of a clicked submit button. *)
Definition submit_clicked (t : list event) : bool :=
  existsb (fun ev => match ev with
                     | Logged INFO text => startswith (py "已点击提交按钮: ") text
                     | _ => false
                     end) t.

(** [never_returns m]: [m] never executes a [return]. *)
Definition never_returns `{Platform} {A} (m : M A) : Prop :=
  forall s v, (m s).2 <> Return v.

(** The return paths of [run_login], in the order of the source, with the
    message each of them passes to [send_tg_message] and the value it
    returns. *)
Inductive describes (masked_user now_time : str) : str -> bool -> Prop :=
| missing_credentials :
    describes masked_user now_time (msg_missing_credentials masked_user now_time) false
| missing_browser :
    describes masked_user now_time (msg_no_chromium masked_user now_time) false
| two_factor_without_secret :
    describes masked_user now_time (msg_2fa_no_secret masked_user now_time) false
| two_factor_fill_failure e :
    describes masked_user now_time (msg_2fa_failed masked_user now_time e) false
| classified_success final_url :
    describes masked_user now_time (msg_success masked_user now_time final_url) true
| classified_failure :
    describes masked_user now_time (msg_failure masked_user now_time) false
| caught_exception e :
    describes masked_user now_time (msg_exception masked_user now_time e) false.

(** Events other than an entry into [send_tg_message]. *)
Definition not_send_tg (ev : event) : Prop :=
  match ev with SendTg _ => False | _ => True end.

(** ** The six steps of the walk

    1 navigate, 2 click the OAuth button, 3 fill the credentials,
    4 handle 2FA, 5 handle the consent page, 6 verify.  [step_of] gives
    the step an event belongs to, for the log lines and the calls that
    belong to one step only; reads of the current URL, clicks and keys on
    element handles, sleeps and everything around the walk have none. *)
Definition step_of (ev : event) : option nat :=
  match ev with
  | Logged INFO text =>
    if startswith (py "[Step 2]") text then Some 1%nat
    else if startswith (py "[Step 3]") text then Some 2%nat
    else if startswith (py "[Step 4]") text
            || startswith (py "检测到 GitHub 登录页") text then Some 3%nat
    else if startswith (py "[Step 5]") text then Some 4%nat
    else if startswith (py "[Step 6]") text then Some 5%nat
    else if startswith (py "[Step 7]") text then Some 6%nat
    else None
  | Called (get _ _) => Some 1%nat
  | Called (until _ _ (element_to_be_clickable (XPATH v))) =>
    if bool_decide (v = py "//button[contains(text(), 'GitHub')]") then Some 2%nat
    else if bool_decide (v = py "//button[contains(text(), 'Authorize')]") then Some 5%nat
    else None
  | Called (until _ _ (presence_of_element_located (ID v)))
  | Called (find_element _ (ID v)) =>
    if bool_decide (v = py "login_field") || bool_decide (v = py "password")
    then Some 3%nat
    else if bool_decide (v = py "app_totp") then Some 4%nat
    else None
  | Called (find_element _ (CSS_SELECTOR v)) =>
    if bool_decide (v = py "input[name='commit']") then Some 3%nat
    else if bool_decide (v ∈ submit_selectors) then Some 4%nat
    else None
  | Called (TOTP_now _) => Some 4%nat
  | Called (execute_script _ script _) =>
    if bool_decide (script = py "arguments[0].form.submit();") then Some 4%nat
    else None
  | Called (save_screenshot _ path) =>
    if bool_decide (path = py "/ql/data/scripts/clawcloud_2fa_error.png")
       || bool_decide (path = py "/ql/data/scripts/clawcloud_2fa_fail.png")
    then Some 4%nat
    else if bool_decide (path = result_png) then Some 6%nat
    else None
  | Called (page_source _) => Some 6%nat
  | _ => None
  end.

(** The log line that marks the entry into a step. *)
Definition entry_of (ev : event) : option nat :=
  match ev with
  | Logged INFO text =>
    if startswith (py "[Step 2]") text then Some 1%nat
    else if startswith (py "[Step 3]") text then Some 2%nat
    else if startswith (py "检测到 GitHub 登录页") text then Some 3%nat
    else if startswith (py "[Step 5]") text then Some 4%nat
    else if startswith (py "[Step 6]") text then Some 5%nat
    else if startswith (py "[Step 7]") text then Some 6%nat
    else None
  | _ => None
  end.

Definition steps (t : list event) : list nat := omap step_of t.
Definition entries (t : list event) : list nat := omap entry_of t.

(** Events of step [k], or of no step. *)
Definition of_step (k : nat) (ev : event) : Prop :=
  (step_of ev = None \/ step_of ev = Some k) /\ entry_of ev = None.

(** Events of no step. *)
Definition of_no_step (ev : event) : Prop :=
  step_of ev = None /\ entry_of ev = None.

(** [ordered lo hi t]: along [t] the steps never go back, no step is
    entered twice, and all steps lie between [lo] and [hi]. *)
Definition ordered (lo hi : nat) (t : list event) : Prop :=
  StronglySorted le (steps t) /\ StronglySorted lt (entries t) /\
  Forall (fun k => lo <= k <= hi)%nat (steps t) /\
  Forall (fun k => lo <= k <= hi)%nat (entries t).

Definition phased `{Platform} {A} (lo hi : nat) (m : M A) : Prop :=
  spec m (fun t _ => ordered lo hi t).

(** [in_step k t]: [t] holds events of step [k] or of no step, and at
    most one entry, into step [k]. *)
Definition in_step (k : nat) (t : list event) : Prop :=
  Forall (fun ev => step_of ev = None \/ step_of ev = Some k) t /\
  (entries t = [] \/ entries t = [k]).

Definition block `{Platform} {A} (k : nat) (m : M A) : Prop :=
  spec m (fun t _ => in_step k t).

(** ** Two runs that differ in the password *)

(** The hosts agree on everything but the value of GH_PASSWORD. *)
Definition same_but_password (h1 h2 : Host) : Prop :=
  (forall key, key <> py "GH_PASSWORD" -> environ h1 !! key = environ h2 !! key) /\
  (forall p, path_exists h1 p = path_exists h2 p) /\
  strftime_now h1 = strftime_now h2.

(** The answers of the world do not depend on the text that is typed:
    the two runs see the same browser. *)
Definition oblivious `{Platform} : Prop :=
  forall e keys1 keys2 w,
    respond (send_keys e keys1) w = respond (send_keys e keys2) w.

(** An event with the typed text left out. *)
Definition blank (ev : event) : event :=
  match ev with
  | Called (send_keys e _) => Called (send_keys e [])
  | _ => ev
  end.

(** Two states that differ at most in the texts typed so far. *)
Definition alike `{Platform} (s1 s2 : State) : Prop :=
  world s1 = world s2 /\ driver s1 = driver s2 /\
  List.map blank (trace s1) = List.map blank (trace s2).

(** Two computations that take alike states to alike states and stop
    the same way. *)
Definition agree `{Platform} {A} (m1 m2 : M A) : Prop :=
  forall s1 s2, alike s1 s2 ->
    alike (m1 s1).1 (m2 s2).1 /\ (m1 s1).2 = (m2 s2).2.

(** The messages of a run are built from the masked account. *)
Definition built_from_mask (masked_user now_time : str) (ev : event) : Prop :=
  match ev with
  | SendTg text => exists b, describes masked_user now_time text b
  | _ => True
  end.

(** ** Further examples *)

(** A host with an account but no password. *)
Definition host_without_password : Host :=
  host_of [(py "GH_USERNAME", py "octocat@example.com");
           (py "TG_BOT_TOKEN", py "123:abc")]
          [py "/usr/bin/chromium"; py "/usr/bin/chromedriver"].

(** The URL and the body of the request of [send_tg_message]. *)
Definition sendMessage_url (bot_token : str) : str :=
  py "https://api.telegram.org/bot" ++ bot_token ++ py "/sendMessage".

Definition sendMessage_json (chat_id text : str) : list (str * value) :=
  [(py "chat_id", VStr chat_id);
   (py "text", VStr text);
   (py "disable_web_page_preview", VBool true)].

(** Calls other than [driver.quit()]. *)
Definition not_quit (ev : event) : Prop :=
  match ev with
  | Called (quit _) => False
  | _ => True
  end.

(** The requests posted, in order. *)
Definition posts (t : list event) : list (str * list (str * value) * N) :=
  omap (fun ev => match ev with
                  | Called (requests_post url json timeout) => Some (url, json, timeout)
                  | _ => None
                  end) t.

(** The line [send_tg_message] logs for the outcome of its request. *)
Definition tg_outcome (r : Exception + N) : event :=
  match r with
  | inr status_code =>
      if status_code =? 200 then Logged INFO (py "TG 通知发送成功")
      else Logged WARNING (py "TG 通知发送失败 HTTP=" ++ decimal status_code)
  | inl e => Logged WARNING (py "TG 消息发送失败: " ++ exc_text e)
  end.

(** [keeps_driver m]: [m] does not assign the variable [driver]. *)
Definition keeps_driver `{Platform} {A} (m : M A) : Prop :=
  forall s, driver (m s).1 = driver s.

(** What [webdriver.Chrome] is called with on line 154 or 157. *)
Definition chrome_call (h : Host) (options : Options) : call :=
  webdriver_Chrome (find_chromedriver h) options.

(** Events other than keys sent to an element. *)
Definition not_typed (ev : event) : Prop :=
  match ev with
  | Called (send_keys _ _) => False
  | _ => True
  end.

(** The keys of the login form: at most the user name, then the
    password. *)
Definition credentials_typed (username password : str)
    (keys : list (WebElement * str)) : Prop :=
  keys = [] \/
  (exists username_field, keys = [(username_field, username)]) \/
  (exists username_field password_field,
     keys = [(username_field, username); (password_field, password)]).

(** The keys of the 2FA form: single characters sent to one field, then
    at most one RETURN. *)
Definition code_typed (keys : list (WebElement * str)) : Prop :=
  exists totp_field chars last_keys,
    keys = one_by_one totp_field chars ++ last_keys /\
    (last_keys = [] \/ exists field', last_keys = [(field', Keys_RETURN)]).

(** [types Q m]: the keys [m] sends, in order, satisfy [Q]. *)
Definition types `{Platform} {A} (Q : list (WebElement * str) -> Prop) (m : M A) : Prop :=
  spec m (fun t _ => Q (typed_keys t)).

(** The keys of a whole run: the login form, then the 2FA form. *)
Definition run_typed (username password : str) (keys : list (WebElement * str)) : Prop :=
  exists creds code,
    keys = creds ++ code /\
    credentials_typed username password creds /\ code_typed code.

(** The reference site in front of a secret that is not valid base32:
    [pyotp.TOTP(secret).now()] raises. *)
Definition binascii_Error : Exception :=
  mkException (py "binascii.Error") (py "Incorrect padding").

Definition bad_secret_respond (c : call) (p : page)
  : page * (Exception + result_of c) :=
  match c return page * (Exception + result_of c) with
  | TOTP_now _ => (p, inl binascii_Error)
  | c' => site_respond usual c' p
  end.

Definition site_bad_secret : Platform :=
  {| World := page; respond := bad_secret_respond; str_lower := ascii_lower |}.

Definition fail_png : str := py "/ql/data/scripts/clawcloud_2fa_fail.png".

(** The two messages of the 2FA step. *)
Definition two_factor_message (masked_user now_time msg : str) : Prop :=
  msg = msg_2fa_no_secret masked_user now_time \/
  exists e, msg = msg_2fa_failed masked_user now_time e.

(** What the walk has passed to [send_tg_message] when it stops, before
    the final report: nothing, unless the 2FA step has stopped it. *)
Definition walk_said (masked_user now_time : str) {A}
    (said : list str) (c : completion A) : Prop :=
  match c with
  | Normal _ => said = []
  | Return v => v = false /\ exists msg, said = [msg] /\
                  two_factor_message masked_user now_time msg
  | Raise _ => said = [] \/ exists msg, said = [msg] /\
                  two_factor_message masked_user now_time msg
  end.

(** The same for the whole body of the [try]. *)
Definition flow_said (masked_user now_time : str) {A}
    (said : list str) (c : completion A) : Prop :=
  match c with
  | Normal _ => False
  | Return v => exists msg, said = [msg] /\ describes masked_user now_time msg v
  | Raise _ => said = [] \/ exists msg, said = [msg] /\
                  two_factor_message masked_user now_time msg
  end.

(** And for the [try] statement with its handler. *)
Definition session_said (masked_user now_time : str) {A}
    (said : list str) (c : completion A) : Prop :=
  match c with
  | Return v =>
      (exists msg, said = [msg] /\ describes masked_user now_time msg v) \/
      (exists msg e, v = false /\ said = [msg; msg_exception masked_user now_time e] /\
                     two_factor_message masked_user now_time msg)
  | _ => False
  end.

(** ** The script run as a program (lines 398-414) *)

(** [if success:] on the value of [run_login()]: None is false. *)
Definition truthy_result (success : option bool) : bool := default false success.

(** The process from start to exit: the three log lines, the call of
    [run_login], the three log lines of the outcome and the status passed
    to [exit].  An exception that escapes [run_login] is not caught: the
    interpreter prints the traceback and ends with status 1. *)
Definition main `{Platform} (h : Host) (w : World) : State * N :=
  let rule := Logged INFO (replicate 60 61) in
  let head := [rule; Logged INFO (py "ClawCloud 自动登录脚本 - Selenium 版本"); rule] in
  match run_login h w with
  | (s, inr success) =>
    if truthy_result success then
      (mkState (world s)
         (head ++ trace s ++ [rule; Logged SUCCESS (py "✅ 登录成功"); rule])
         (driver s), 0)                                         (* exit(0) *)
    else
      (mkState (world s)
         (head ++ trace s ++ [rule; Logged ERROR (py "❌ 登录失败"); rule])
         (driver s), 1)                                         (* exit(1) *)
  | (s, inl e) => (mkState (world s) (head ++ trace s) (driver s), 1)
  end.

(** * Properties *)

(** ** Strings *)

Lemma startswith_spec (p s : str) :
  startswith p s = true <-> exists r, s = p ++ r.
Proof.
  revert s; induction p as [|c p IH]; intros s; simpl.
  - split; [intros _; exists s; reflexivity | reflexivity].
  - destruct s as [|c' s]; simpl.
    + split; [discriminate | intros [r Hr]; discriminate].
    + rewrite andb_true_iff, N.eqb_eq, IH. split.
      * intros [-> [r ->]]. exists r. reflexivity.
      * intros [r Hr]. injection Hr as -> ->. split; [reflexivity | eauto].
Qed.

Lemma contains_spec (n s : str) :
  contains n s = true <-> exists a b, s = a ++ n ++ b.
Proof.
  induction s as [|c s IH]; simpl.
  - rewrite orb_false_r, startswith_spec. split.
    + intros [r Hr]. exists [], r. exact Hr.
    + intros [a [b Hab]]. destruct a as [|x a]; [|discriminate].
      exists b. exact Hab.
  - rewrite orb_true_iff, startswith_spec, IH. split.
    + intros [[r Hr] | [a [b Hab]]].
      * exists [], r. exact Hr.
      * exists (c :: a), b. rewrite Hab. reflexivity.
    + intros [a [b Hab]]. destruct a as [|x a].
      * left. exists b. exact Hab.
      * right. injection Hab as -> ->. eauto.
Qed.

Lemma contains_suffix (a n : str) : contains n (a ++ n) = true.
Proof. apply contains_spec. exists a, []. rewrite app_nil_r. reflexivity. Qed.

Lemma contains_app_r (a b n : str) :
  contains n b = true -> contains n (a ++ b) = true.
Proof.
  rewrite !contains_spec. intros [x [y ->]]. exists (a ++ x), y.
  rewrite app_assoc. reflexivity.
Qed.

Lemma contains_refl (n : str) : contains n n = true.
Proof. apply (contains_suffix [] n). Qed.

Lemma contains_false_spec (n s : str) :
  contains n s = false <-> ~ exists a b, s = a ++ n ++ b.
Proof. rewrite <- contains_spec. destruct (contains n s); split; congruence. Qed.

Lemma lstrip_nil (s : str) : lstrip s = [] <-> Forall (fun c => isspace c = true) s.
Proof.
  induction s as [|c s IH]; simpl.
  - split; [constructor | reflexivity].
  - destruct (isspace c) eqn:Hc.
    + rewrite IH. split; [intros Hs; constructor; assumption | intros Hs].
      inversion Hs; assumption.
    + split; [discriminate | intros Hs]. inversion Hs; congruence.
Qed.

Lemma Forall_isspace_lstrip (s : str) :
  Forall (fun c => isspace c = true) (lstrip s) <->
  Forall (fun c => isspace c = true) s.
Proof.
  induction s as [|c s IH]; simpl; [reflexivity|].
  destruct (isspace c) eqn:Hc; [|reflexivity].
  rewrite IH. split; [intros Hs; constructor; assumption | intros Hs].
  inversion Hs; assumption.
Qed.

(** [s.strip()] is empty exactly when [s] is empty or whitespace only. *)
Lemma strip_nil (s : str) : strip s = [] <-> Forall (fun c => isspace c = true) s.
Proof.
  unfold strip, rstrip.
  rewrite <- (Forall_isspace_lstrip s).
  assert (Hrev : Forall (fun c => isspace c = true) (lstrip s) <->
                 Forall (fun c => isspace c = true) (rev (lstrip s))).
  { rewrite !List.Forall_forall. split; intros Hs x Hx; apply Hs.
    - apply in_rev. exact Hx.
    - apply in_rev in Hx. exact Hx. }
  rewrite Hrev, <- lstrip_nil. split.
  - intros Hs. apply (f_equal (@rev N)) in Hs. rewrite rev_involutive in Hs. exact Hs.
  - intros ->. reflexivity.
Qed.

(** ** [mask_account] *)

Lemma split1_spec (sep : N) (s : str) :
  contains [sep] s = true ->
  s = (split1 sep s).1 ++ sep :: (split1 sep s).2 /\ ~ In sep (split1 sep s).1.
Proof.
  induction s as [|c s IH]; [discriminate|].
  simpl. destruct (c =? sep) eqn:Hc.
  - apply N.eqb_eq in Hc as ->. intros _. simpl. split; [reflexivity | tauto].
  - rewrite (N.eqb_sym sep c), Hc. simpl. intros Hs.
    destruct (IH Hs) as [Heq Hnot]. destruct (split1 sep s) as [a b]. simpl in *.
    split; [congruence|]. intros [-> | Hin]; [|tauto].
    rewrite N.eqb_refl in Hc. discriminate.
Qed.

(** What [mask_account] returns whenever the local part is not empty. *)
Lemma mask_account_masks (name domain : str) :
  name <> [] -> ~ In 64 name ->
  mask_account (name ++ 64 :: domain) =
  inr (take (if N.of_nat (length name) <=? 3 then 1%nat else 3%nat) name
       ++ py "***@" ++ domain).
Proof.
  intros Hne Hnot. unfold mask_account.
  assert (Hc : contains (py "@") (name ++ 64 :: domain) = true).
  { apply contains_spec. exists name, domain. reflexivity. }
  rewrite Hc. destruct name as [|c name]; [congruence|]. cbn [app truthy negb orb].
  assert (Hs : split1 64 ((c :: name) ++ 64 :: domain) = (c :: name, domain)).
  { clear Hne Hc. induction (c :: name) as [|x l IH]; simpl.
    - reflexivity.
    - destruct (x =? 64) eqn:Hx.
      + apply N.eqb_eq in Hx. subst x. exfalso. apply Hnot. left. reflexivity.
      + rewrite IH; [reflexivity|]. intros Hin. apply Hnot. right. exact Hin. }
  cbn [app] in Hs. rewrite Hs.
  destruct (N.of_nat (length (c :: name)) <=? 3); reflexivity.
Qed.

Lemma mask_account_unknown (account : str) :
  account = [] \/ contains (py "@") account = false ->
  mask_account account = inr (py "unknown").
Proof.
  intros [-> | Hc]; [reflexivity|].
  unfold mask_account. rewrite Hc, orb_true_r. reflexivity.
Qed.

(** The one way [mask_account] raises: [name[0]] on an empty local part. *)
Lemma mask_account_at (domain : str) :
  mask_account (64 :: domain) = inl IndexError.
Proof.
  unfold mask_account.
  assert (Hc : contains (py "@") (64 :: domain) = true).
  { apply contains_spec. exists [], domain. reflexivity. }
  rewrite Hc. cbn [truthy negb orb split1]. rewrite N.eqb_refl. reflexivity.
Qed.

Lemma mask_account_inl (account : str) (e : Exception) :
  mask_account account = inl e ->
  e = IndexError /\ exists domain, account = 64 :: domain.
Proof.
  intros Hm. destruct account as [|c account].
  { discriminate. }
  destruct (contains [64] (c :: account)) eqn:Hc.
  2:{ rewrite mask_account_unknown in Hm; [discriminate | auto]. }
  destruct (split1_spec 64 (c :: account) Hc) as [Heq Hnot].
  destruct (split1 64 (c :: account)) as [name domain] eqn:Hsplit.
  cbn [fst snd] in Heq, Hnot. destruct name as [|n name].
  - cbn [app] in Heq. rewrite Heq, mask_account_at in Hm.
    injection Hm as <-. split; [reflexivity|]. exists domain. exact Heq.
  - rewrite Heq, mask_account_masks in Hm; [discriminate | discriminate | exact Hnot].
Qed.

(** C9 (the code departs from the claim): [mask_account] is not total.
    On every account whose local part, the text before the first "@", is
    empty, the function indexes [name[0]] on an empty string and raises
    IndexError where the claim promises a returned string. *)
Theorem mask_account_raises_on_empty_local_part (domain : str) :
  mask_account (py "@" ++ domain) = inl IndexError.
Proof.
  unfold mask_account.
  assert (Hc : contains (py "@") (py "@" ++ domain) = true).
  { apply contains_spec. exists [], domain. reflexivity. }
  rewrite Hc. change (py "@" ++ domain) with (64 :: domain).
  cbn [truthy negb orb split1]. rewrite N.eqb_refl. reflexivity.
Qed.

(** ** The combinators *)

Section Logic.
Context `{Platform}.

Lemma spec_run {A} (m : M A) (Q : list event -> completion A -> Prop)
    (s s' : State) (c : completion A) :
  spec m Q -> m s = (s', c) -> exists t, trace s' = trace s ++ t /\ Q t c.
Proof. intros Hm Hr. specialize (Hm s). rewrite Hr in Hm. exact Hm. Qed.

Lemma spec_conseq {A} (m : M A) (Q Q' : list event -> completion A -> Prop) :
  spec m Q -> (forall t c, Q t c -> Q' t c) -> spec m Q'.
Proof. intros Hm HQ s. destruct (Hm s) as [t [Ht Hq]]. eauto. Qed.

Lemma spec_ret {A} (a : A) (Q : list event -> completion A -> Prop) :
  Q [] (Normal a) -> spec (ret a) Q.
Proof. intros HQ s. exists []. simpl. rewrite app_nil_r. auto. Qed.

Lemma spec_return {A} v (Q : list event -> completion A -> Prop) :
  Q [] (Return v) -> spec (return_ v) Q.
Proof. intros HQ s. exists []. simpl. rewrite app_nil_r. auto. Qed.

Lemma spec_raise {A} e (Q : list event -> completion A -> Prop) :
  Q [] (Raise e) -> spec (raise e) Q.
Proof. intros HQ s. exists []. simpl. rewrite app_nil_r. auto. Qed.

Lemma spec_emit ev (Q : list event -> completion unit -> Prop) :
  Q [ev] (Normal tt) -> spec (emit ev) Q.
Proof. intros HQ s. exists [ev]. simpl. auto. Qed.

Lemma spec_do c (Q : list event -> completion (result_of c) -> Prop) :
  (forall r, Q [Called c] (Normal r)) ->
  (forall e, Q [Called c] (Raise e)) ->
  spec (do c) Q.
Proof.
  intros Hn He s. exists [Called c]. unfold do.
  destruct (respond c (world s)) as [w [e|r]]; simpl; auto.
Qed.

Lemma spec_get_driver (Q : list event -> completion (option WebDriver) -> Prop) :
  (forall d, Q [] (Normal d)) -> spec get_driver Q.
Proof. intros HQ s. exists []. simpl. rewrite app_nil_r. auto. Qed.

Lemma spec_set_driver d (Q : list event -> completion unit -> Prop) :
  Q [] (Normal tt) -> spec (set_driver d) Q.
Proof. intros HQ s. exists []. simpl. rewrite app_nil_r. auto. Qed.

Lemma spec_bind {A B} (m : M A) (k : A -> M B) Q1 Q2
    (Q : list event -> completion B -> Prop) :
  spec m Q1 -> (forall a, spec (k a) (Q2 a)) ->
  (forall t1 a t2 c, Q1 t1 (Normal a) -> Q2 a t2 c -> Q (t1 ++ t2) c) ->
  (forall t v, Q1 t (Return v) -> Q t (Return v)) ->
  (forall t e, Q1 t (Raise e) -> Q t (Raise e)) ->
  spec (bind m k) Q.
Proof.
  intros Hm Hk Hn Hr He s. unfold bind.
  destruct (Hm s) as [t1 [Ht1 Hq1]].
  destruct (m s) as [s1 [a|v|e]]; simpl in *.
  - destruct (Hk a s1) as [t2 [Ht2 Hq2]]. exists (t1 ++ t2).
    rewrite Ht2, Ht1, app_assoc. eauto.
  - exists t1. auto.
  - exists t1. auto.
Qed.

Lemma spec_try_except {A} (body : M A) handler Q1 Q2
    (Q : list event -> completion A -> Prop) :
  spec body Q1 -> (forall e, spec (handler e) (Q2 e)) ->
  (forall t1 e t2 c, Q1 t1 (Raise e) -> Q2 e t2 c -> Q (t1 ++ t2) c) ->
  (forall t a, Q1 t (Normal a) -> Q t (Normal a)) ->
  (forall t v, Q1 t (Return v) -> Q t (Return v)) ->
  spec (try_except body handler) Q.
Proof.
  intros Hm Hk He Hn Hr s. unfold try_except.
  destruct (Hm s) as [t1 [Ht1 Hq1]].
  destruct (body s) as [s1 [a|v|e]]; simpl in *.
  - exists t1. auto.
  - exists t1. auto.
  - destruct (Hk e s1) as [t2 [Ht2 Hq2]]. exists (t1 ++ t2).
    rewrite Ht2, Ht1, app_assoc. eauto.
Qed.

Lemma spec_try_finally {A} (body : M A) final Q1 Q2
    (Q : list event -> completion A -> Prop) :
  spec body Q1 -> spec final Q2 ->
  (forall t1 c1 t2 c2, Q1 t1 c1 -> Q2 t2 c2 ->
     Q (t1 ++ t2) match c2 with
                  | Normal _ => c1
                  | Return v => Return v
                  | Raise e => Raise e
                  end) ->
  spec (try_finally body final) Q.
Proof.
  intros Hm Hf HQ s. unfold try_finally.
  destruct (Hm s) as [t1 [Ht1 Hq1]].
  destruct (body s) as [s1 c1]; simpl in *.
  destruct (Hf s1) as [t2 [Ht2 Hq2]].
  specialize (HQ _ _ _ _ Hq1 Hq2).
  destruct (final s1) as [s2 [a|v|e]]; simpl in *;
    exists (t1 ++ t2); rewrite Ht2, Ht1, app_assoc; auto.
Qed.

(** *** Events of one kind *)

Variable P : event -> Prop.

Lemma emits_ret {A} (a : A) : emits P (ret a).
Proof. apply spec_ret. constructor. Qed.

Lemma emits_return {A} v : emits P (@return_ _ A v).
Proof. apply spec_return. constructor. Qed.

Lemma emits_raise {A} e : emits P (@raise _ A e).
Proof. apply spec_raise. constructor. Qed.

Lemma emits_lift {A} (r : Exception + A) : emits P (lift r).
Proof. destruct r; [apply emits_raise | apply emits_ret]. Qed.

Lemma emits_emit ev : P ev -> emits P (emit ev).
Proof. intros Hev. apply spec_emit. repeat constructor. exact Hev. Qed.

Lemma emits_do c : P (Called c) -> emits P (do c).
Proof. intros Hc. apply spec_do; intros; repeat constructor; exact Hc. Qed.

Lemma emits_get_driver : emits P get_driver.
Proof. apply spec_get_driver. constructor. Qed.

Lemma emits_set_driver d : emits P (set_driver d).
Proof. apply spec_set_driver. constructor. Qed.

Lemma emits_bind {A B} (m : M A) (k : A -> M B) :
  emits P m -> (forall a, emits P (k a)) -> emits P (bind m k).
Proof.
  intros Hm Hk.
  apply (spec_bind m k (fun t _ => Forall P t) (fun _ t _ => Forall P t));
    [exact Hm | exact Hk | | |]; simpl; auto.
  intros. apply Forall_app. auto.
Qed.

Lemma emits_try_except {A} (body : M A) handler :
  emits P body -> (forall e, emits P (handler e)) ->
  emits P (try_except body handler).
Proof.
  intros Hm Hk.
  apply (spec_try_except body handler (fun t _ => Forall P t) (fun _ t _ => Forall P t));
    [exact Hm | exact Hk | | |]; simpl; auto.
  intros. apply Forall_app. auto.
Qed.

Lemma emits_try_finally {A} (body : M A) final :
  emits P body -> emits P final -> emits P (try_finally body final).
Proof.
  intros Hm Hf.
  apply (spec_try_finally body final (fun t _ => Forall P t) (fun t _ => Forall P t));
    [exact Hm | exact Hf |]; simpl.
  intros. apply Forall_app. auto.
Qed.

Lemma emits_for_in {A} (l : list A) body :
  (forall x, emits P (body x)) -> emits P (for_in l body).
Proof.
  intros Hb. induction l as [|x l IH]; simpl.
  - apply emits_ret.
  - apply emits_bind; auto.
Qed.
End Logic.

(** *** Running a computation one statement at a time *)

Section Steps.
Context `{Platform}.

Lemma bind_bind {A B C} (m : M A) (k1 : A -> M B) (k2 : B -> M C) (s : State) :
  bind (bind m k1) k2 s = bind m (fun a => bind (k1 a) k2) s.
Proof. unfold bind. destruct (m s) as [s1 [a|v|e]]; reflexivity. Qed.

Lemma bind_ret {A B} (a : A) (k : A -> M B) (s : State) :
  bind (ret a) k s = k a s.
Proof. reflexivity. Qed.

Lemma bind_return {A B} (v : bool) (k : A -> M B) (s : State) :
  bind (return_ v) k s = (s, Return v).
Proof. reflexivity. Qed.

Lemma bind_emit {B} (ev : event) (k : unit -> M B) (s : State) :
  bind (emit ev) k s = k tt (mkState (world s) (trace s ++ [ev]) (driver s)).
Proof. reflexivity. Qed.

Lemma bind_do {B} (c : call) (k : result_of c -> M B) (s : State) :
  bind (do c) k s =
    match respond c (world s) with
    | (w, inr a) => k a (mkState w (trace s ++ [Called c]) (driver s))
    | (w, inl e) => (mkState w (trace s ++ [Called c]) (driver s), Raise e)
    end.
Proof.
  unfold bind, do. destruct (respond c (world s)) as [w [e|a]]; reflexivity.
Qed.

Lemma run_do (c : call) (s : State) :
  do c s =
    match respond c (world s) with
    | (w, inr a) => (mkState w (trace s ++ [Called c]) (driver s), Normal a)
    | (w, inl e) => (mkState w (trace s ++ [Called c]) (driver s), Raise e)
    end.
Proof. unfold do. destruct (respond c (world s)) as [w [e|a]]; reflexivity. Qed.

Lemma bind_normal {A B} (m : M A) (k : A -> M B) (s s1 : State) (a : A) :
  m s = (s1, Normal a) -> bind m k s = k a s1.
Proof. intros Hm. unfold bind. rewrite Hm. reflexivity. Qed.

Lemma bind_raise {A B} (m : M A) (k : A -> M B) (s s1 : State) (e : Exception) :
  m s = (s1, Raise e) -> bind m k s = (s1, Raise e).
Proof. intros Hm. unfold bind. rewrite Hm. reflexivity. Qed.

Lemma bind_returned {A B} (m : M A) (k : A -> M B) (s s1 : State) (v : bool) :
  m s = (s1, Return v) -> bind m k s = (s1, Return v).
Proof. intros Hm. unfold bind. rewrite Hm. reflexivity. Qed.

Lemma try_except_normal {A} (body : M A) handler (s s1 : State) (a : A) :
  body s = (s1, Normal a) -> try_except body handler s = (s1, Normal a).
Proof. intros Hm. unfold try_except. rewrite Hm. reflexivity. Qed.

Lemma try_except_raise {A} (body : M A) handler (s s1 : State) (e : Exception) :
  body s = (s1, Raise e) -> try_except body handler s = handler e s1.
Proof. intros Hm. unfold try_except. rewrite Hm. reflexivity. Qed.
End Steps.

(** ** [send_tg_message] *)

Section Notification.
Context `{Platform}.

(** [send_tg_message] always comes back: whatever the request does is
    logged and swallowed. *)
Lemma send_tg_message_run (h : Host) (text : str) (s : State) :
  exists w t,
    send_tg_message h text s =
      (mkState w (trace s ++ SendTg text :: t) (driver s), Normal tt)
    /\ Forall tg_effect t.
Proof.
  unfold send_tg_message, log, bind, emit, try_except, do. simpl.
  destruct (negb (truthy _) || negb (truthy _)).
  - eexists _, [_]. simpl. rewrite <- app_assoc. split; [reflexivity|].
    repeat constructor.
  - simpl. destruct (respond _ (world s)) as [w [e|r]]; simpl.
    + eexists _, [_; _]. rewrite <- !app_assoc. split; [reflexivity|].
      repeat constructor.
    + destruct (r =? 200); simpl; eexists _, [_; _]; rewrite <- !app_assoc;
        (split; [reflexivity | repeat constructor]).
Qed.

(** Without a bot token or a chat id nothing is posted. *)
Lemma send_tg_message_unconfigured (h : Host) (text : str) (s : State) :
  strip (environ_get h (py "TG_BOT_TOKEN")) = [] \/
  strip (environ_get h (py "TG_CHAT_ID")) = [] ->
  send_tg_message h text s =
    (mkState (world s)
       (trace s ++ [SendTg text;
                    Logged INFO (py "未配置 TG_BOT_TOKEN / TG_CHAT_ID，跳过 TG 通知")])
       (driver s), Normal tt).
Proof.
  intros Hc. unfold send_tg_message, log, bind, emit. simpl.
  replace (negb (truthy (strip (environ_get h (py "TG_BOT_TOKEN"))))
           || negb (truthy (strip (environ_get h (py "TG_CHAT_ID"))))) with true.
  - simpl. rewrite <- app_assoc. reflexivity.
  - destruct Hc as [-> | ->]; simpl; [reflexivity | rewrite orb_true_r; reflexivity].
Qed.
End Notification.

(** ** Walking over the script *)

Create HintDb script discriminated.
#[global] Hint Unfold log log_exception sleep start_browser visit click_github
  on_login_page fill_login on_2fa_page js_submit submit_totp enter_totp check_2fa
  check_authorize read_result report_result flow_to_2fa flow_to_result
  login_flow on_exception close_browser browser_session : script.

Ltac emits_leaf :=
  first [solve [auto] | solve [vm_compute; auto] | solve [simpl; auto] | idtac].

Ltac emits_step :=
  lazymatch goal with
  | |- emits ?P (bind ?m ?k) => apply (emits_bind P m k); [|intros]
  | |- emits ?P (try_except ?b ?k) => apply (emits_try_except P b k); [|intros]
  | |- emits ?P (try_finally ?b ?f) => apply (emits_try_finally P b f)
  | |- emits ?P (for_in ?l ?b) => apply (emits_for_in P l b); intros
  | |- emits ?P (ret ?a) => apply (emits_ret P a)
  | |- emits ?P (return_ ?v) => apply (emits_return P v)
  | |- emits ?P (raise ?e) => apply (emits_raise P e)
  | |- emits ?P (lift ?r) => apply (emits_lift P r)
  | |- emits ?P get_driver => apply (emits_get_driver P)
  | |- emits ?P (set_driver ?d) => apply (emits_set_driver P d)
  | |- emits ?P (emit ?ev) => apply (emits_emit P ev); emits_leaf
  | |- emits ?P (do ?c) => apply (emits_do P c); emits_leaf
  | |- emits _ (if ?b then _ else _) => destruct b
  | |- emits _ (match ?x with _ => _ end) => destruct x
  end.

Ltac emits_walk := repeat (autounfold with script; emits_step).

Section Walk.
Context `{Platform}.
Variable P : event -> Prop.
Hypothesis P_logged : forall l text, P (Logged l text).
Hypothesis P_slept : forall d, P (Slept d).
Hypothesis P_called : forall c, P (Called c).

Lemma emits_click_submit d selectors : emits P (click_submit d selectors).
Proof. induction selectors as [|sel rest IH]; simpl; emits_walk; assumption. Qed.

Lemma emits_close_browser : emits P close_browser.
Proof. emits_walk. Qed.

Lemma emits_visit d : emits P (visit d).
Proof. emits_walk. Qed.

Lemma emits_click_github d : emits P (click_github d).
Proof. emits_walk. Qed.

Lemma emits_fill_login u p d : emits P (fill_login u p d).
Proof. emits_walk. Qed.

Lemma emits_start_browser h o : emits P (start_browser h o).
Proof. emits_walk. Qed.

Lemma emits_check_authorize d : emits P (check_authorize d).
Proof. emits_walk. Qed.

Lemma emits_read_result d : emits P (read_result d).
Proof. emits_walk. Qed.

Lemma emits_enter_totp secret d : emits P (enter_totp secret d).
Proof. emits_walk. apply emits_click_submit. Qed.

Lemma emits_on_2fa_page d : emits P (on_2fa_page d).
Proof. emits_walk. Qed.

Lemma emits_flow_to_2fa h u p o : emits P (flow_to_2fa h u p o).
Proof.
  unfold flow_to_2fa. emits_step; [apply emits_start_browser|].
  emits_step; [apply emits_visit|]. emits_step; [apply emits_click_github|].
  emits_step; [apply emits_fill_login|]. emits_step.
Qed.

Hypothesis P_sendtg : forall text, P (SendTg text).

Lemma emits_send_tg_message h text : emits P (send_tg_message h text).
Proof. unfold send_tg_message. emits_walk. Qed.

Lemma emits_check_2fa h secret now masked d :
  emits P (check_2fa h secret now masked d).
Proof.
  unfold check_2fa.
  repeat first [apply emits_send_tg_message | apply emits_enter_totp | emits_step
               | unfold log, sleep, on_2fa_page].
Qed.

Lemma emits_report_result h now masked u p : emits P (report_result h now masked u p).
Proof.
  unfold report_result.
  repeat first [apply emits_send_tg_message | emits_step | unfold log].
Qed.

Lemma emits_on_exception h now masked e : emits P (on_exception h now masked e).
Proof.
  unfold on_exception.
  repeat first [apply emits_send_tg_message | emits_step | unfold log, log_exception].
Qed.

Lemma emits_flow_to_result h u p secret now masked o :
  emits P (flow_to_result h u p secret now masked o).
Proof.
  unfold flow_to_result. emits_step; [apply emits_flow_to_2fa|].
  emits_step; [apply emits_check_2fa|].
  emits_step; [apply emits_check_authorize | apply emits_read_result].
Qed.

Lemma emits_login_flow h u p secret now masked o :
  emits P (login_flow h u p secret now masked o).
Proof.
  unfold login_flow. emits_step; [apply emits_flow_to_result|].
  emits_step. apply emits_report_result.
Qed.

Lemma emits_browser_session h u p secret now masked o :
  emits P (browser_session h u p secret now masked o).
Proof.
  unfold browser_session. emits_step; [emits_step|]. emits_step.
  - emits_step; [apply emits_login_flow | apply emits_on_exception].
  - apply emits_close_browser.
Qed.
End Walk.

Ltac step_do Hrun :=
  unfold bind at 1 in Hrun; unfold do at 1 in Hrun;
  match type of Hrun with
  | context [respond ?c ?w] => destruct (respond c w) as [? [?|?]]
  end;
  cbn beta iota in Hrun.

Ltac step_emit Hrun :=
  match type of Hrun with
  | context [bind (log ?l ?t) ?k ?s] =>
    change (bind (log l t) k s)
      with (k tt (mkState (world s) (trace s ++ [Logged l t]) (driver s))) in Hrun
  | context [bind (sleep ?d) ?k ?s] =>
    change (bind (sleep d) k s)
      with (k tt (mkState (world s) (trace s ++ [Slept d]) (driver s))) in Hrun
  end;
  cbn beta iota in Hrun; cbn [world trace driver] in Hrun.

Ltac last_emit Hrun :=
  match type of Hrun with
  | context [log ?l ?t ?s] =>
    change (log l t s)
      with (mkState (world s) (trace s ++ [Logged l t]) (driver s), Normal tt) in Hrun
  | context [sleep ?d ?s] =>
    change (sleep d s)
      with (mkState (world s) (trace s ++ [Slept d]) (driver s), Normal tt) in Hrun
  end;
  cbn beta iota in Hrun; cbn [world trace driver] in Hrun.

Section Visits.
Context `{Platform}.
Variable ev : event.

Lemma visits_bind_l {A B} (m : M A) (k : A -> M B) :
  visits ev m -> (forall a, emits (fun _ => True) (k a)) -> visits ev (bind m k).
Proof.
  intros Hm Hk.
  apply (spec_bind m k (fun t _ => In ev t) (fun _ t _ => Forall (fun _ => True) t));
    [exact Hm | exact Hk | | |]; simpl; auto.
  intros. apply in_or_app. auto.
Qed.

Lemma visits_bind_r {A B} (m : M A) (k : A -> M B) :
  emits (fun _ => True) m -> falls_through m -> (forall a, visits ev (k a)) ->
  visits ev (bind m k).
Proof.
  intros Hm Hn Hk s. unfold bind.
  destruct (Hm s) as [t1 [Ht1 _]]. destruct (Hn s) as [a Ha].
  destruct (m s) as [s1 c]. simpl in *. subst c.
  destruct (Hk a s1) as [t2 [Ht2 Hin]]. exists (t1 ++ t2).
  rewrite Ht2, Ht1, app_assoc. split; [reflexivity|]. apply in_or_app. auto.
Qed.

Lemma visits_try_except {A} (body : M A) handler :
  visits ev body -> (forall e, emits (fun _ => True) (handler e)) ->
  visits ev (try_except body handler).
Proof.
  intros Hm Hk.
  apply (spec_try_except body handler (fun t _ => In ev t)
           (fun _ t _ => Forall (fun _ => True) t));
    [exact Hm | exact Hk | | |]; simpl; auto.
  intros. apply in_or_app. auto.
Qed.

Lemma visits_try_finally {A} (body : M A) final :
  visits ev body -> emits (fun _ => True) final ->
  visits ev (try_finally body final).
Proof.
  intros Hm Hf.
  apply (spec_try_finally body final (fun t _ => In ev t)
           (fun t _ => Forall (fun _ => True) t));
    [exact Hm | exact Hf |]; simpl.
  intros. apply in_or_app. auto.
Qed.
End Visits.

(** ** The preamble of [run_login] (lines 93-144) *)

Ltac unfold_monad :=
  unfold log, log_exception, sleep;
  unfold bind, try_except, try_finally, ret, return_, raise, lift, emit,
    get_driver, set_driver.

Section Preamble.
Context `{Platform}.
Variable h : Host.

Lemma preamble_raises (e : Exception) (s : State) :
  mask_account (username_of h) = inl e ->
  preamble h s = (s, Raise e).
Proof.
  intros Hm. unfold preamble. fold (username_of h). rewrite Hm. reflexivity.
Qed.

Lemma preamble_missing_credentials (masked : str) (s : State) :
  mask_account (username_of h) = inr masked ->
  username_of h = [] \/ password_of h = [] ->
  exists w t,
    preamble h s =
      (mkState w (trace s ++ Logged ERROR (msg_missing_credentials masked (strftime_now h))
                   :: SendTg (msg_missing_credentials masked (strftime_now h)) :: t)
         (driver s), Return false)
    /\ Forall tg_effect t.
Proof.
  intros Hm Hc. unfold preamble.
  fold (username_of h) (password_of h). rewrite Hm.
  replace (negb (truthy (username_of h)) || negb (truthy (password_of h))) with true
    by (destruct Hc as [-> | ->]; simpl; [reflexivity | rewrite orb_true_r; reflexivity]).
  unfold_monad. simpl.
  destruct (send_tg_message_run h (msg_missing_credentials masked (strftime_now h))
              (mkState (world s)
                 (trace s ++ [Logged ERROR (msg_missing_credentials masked (strftime_now h))])
                 (driver s))) as [w [t [Ht Hf]]].
  rewrite Ht. simpl. rewrite <- app_assoc. eauto.
Qed.

Lemma preamble_credentials (masked : str) (s : State) :
  mask_account (username_of h) = inr masked ->
  username_of h <> [] -> password_of h <> [] ->
  negb (truthy (username_of h)) || negb (truthy (password_of h)) = false.
Proof.
  intros _ Hu Hp. destruct (username_of h); [congruence|].
  destruct (password_of h); [congruence|]. reflexivity.
Qed.

Lemma preamble_no_chromium (masked : str) (s : State) :
  mask_account (username_of h) = inr masked ->
  username_of h <> [] -> password_of h <> [] ->
  find_chrome h = None ->
  exists w t,
    preamble h s =
      (mkState w (trace s ++ take 6 (banner masked (strftime_now h) [])
                   ++ Logged ERROR (msg_no_chromium masked (strftime_now h))
                   :: SendTg (msg_no_chromium masked (strftime_now h)) :: t)
         (driver s), Return false)
    /\ Forall tg_effect t.
Proof.
  intros Hm Hu Hp Hc. unfold preamble.
  fold (username_of h) (password_of h). rewrite Hm.
  rewrite (preamble_credentials masked s Hm Hu Hp), Hc.
  unfold_monad. simpl.
  match goal with
  | |- context [send_tg_message h ?m ?s0] =>
    destruct (send_tg_message_run h m s0) as [w [t [Ht Hf]]]
  end.
  rewrite Ht. simpl. exists w, t. split; [|exact Hf].
  rewrite <- !app_assoc. reflexivity.
Qed.

Lemma preamble_ready (masked path : str) (s : State) :
  mask_account (username_of h) = inr masked ->
  username_of h <> [] -> password_of h <> [] ->
  find_chrome h = Some path ->
  preamble h s =
    (mkState (world s) (trace s ++ banner masked (strftime_now h) path) (driver s),
     Normal (masked, chrome_options path)).
Proof.
  intros Hm Hu Hp Hc. unfold preamble.
  fold (username_of h) (password_of h). rewrite Hm.
  rewrite (preamble_credentials masked s Hm Hu Hp), Hc.
  unfold_monad. simpl. rewrite <- !app_assoc. reflexivity.
Qed.

(** The preamble hands on only in the situation of [preamble_ready]. *)
Lemma preamble_normal (s s0 : State) (masked : str) (options : Options) :
  preamble h s = (s0, Normal (masked, options)) ->
  exists path,
    mask_account (username_of h) = inr masked /\
    username_of h <> [] /\ password_of h <> [] /\
    find_chrome h = Some path /\ options = chrome_options path /\
    s0 = mkState (world s) (trace s ++ banner masked (strftime_now h) path) (driver s).
Proof.
  intros Hp.
  destruct (mask_account (username_of h)) as [e|m] eqn:Hm.
  { rewrite (preamble_raises e s Hm) in Hp. discriminate. }
  destruct (decide (username_of h = [])) as [Hu|Hu].
  { destruct (preamble_missing_credentials m s Hm) as [w [t [Ht _]]]; [auto|].
    congruence. }
  destruct (decide (password_of h = [])) as [Hpw|Hpw].
  { destruct (preamble_missing_credentials m s Hm) as [w [t [Ht _]]]; [auto|].
    congruence. }
  destruct (find_chrome h) as [path|] eqn:Hc.
  - rewrite (preamble_ready m path s) in Hp; try congruence.
    injection Hp as <- <- <-. exists path. repeat split; congruence.
  - destruct (preamble_no_chromium m s) as [w [t [Ht _]]]; try congruence.
Qed.
End Preamble.

(** ** The outer [try] statement (lines 146-395) *)

Lemma absent_or_blank_strip (h : Host) (key : str) :
  absent_or_blank h key <-> strip (environ_get h key) = [].
Proof.
  unfold absent_or_blank, environ_get. rewrite strip_nil.
  destruct (environ h !! key); simpl; [reflexivity|].
  split; intros; [constructor | exact I].
Qed.

Section Session.
Context `{Platform}.
Variable h : Host.
Variables masked now : str.

Lemma close_browser_run (s : State) :
  exists w t,
    close_browser s = (mkState w (trace s ++ t) (driver s), Normal tt)
    /\ Forall closing t.
Proof.
  unfold close_browser. unfold_monad. simpl.
  destruct (driver s) as [d|] eqn:Hd.
  - unfold do. simpl. destruct (respond (quit d) (world s)) as [w [e|r]]; simpl.
    + exists w, [Called (quit d)]. rewrite Hd. split; [reflexivity|].
      repeat constructor.
    + exists w, [Called (quit d); Logged INFO (py "浏览器已关闭")].
      rewrite Hd, <- app_assoc. split; [reflexivity|]. repeat constructor.
  - exists (world s), []. rewrite app_nil_r, <- Hd. destruct s; simpl.
    split; [reflexivity | constructor].
Qed.

Lemma on_exception_run (e : Exception) (s : State) :
  exists w t,
    on_exception h now masked e s =
      (mkState w
         (trace s ++ [Logged ERROR (msg_exception masked now e);
                      Logged EXCEPTION (exc_text e);
                      SendTg (msg_exception masked now e)]
            ++ t ++ match driver s with
                    | Some d => [Called (save_screenshot d error_png)]
                    | None => []
                    end)
         (driver s), Return false)
    /\ Forall tg_effect t.
Proof.
  unfold on_exception. unfold_monad. simpl.
  match goal with
  | |- context [send_tg_message h ?m ?s0] =>
    destruct (send_tg_message_run h m s0) as [w [t [Ht Hf]]]
  end.
  rewrite Ht. simpl. destruct (driver s) as [d|] eqn:Hd.
  - unfold do. simpl.
    destruct (respond (save_screenshot d _) w) as [w' [e'|r]]; simpl;
      exists w', t; (split; [|exact Hf]); rewrite <- !app_assoc; reflexivity.
  - exists w, t. split; [|exact Hf]. rewrite <- !app_assoc, app_nil_r. reflexivity.
Qed.

Variables username password totp_secret : str.
Variable options : Options.

Local Abbreviation session := (browser_session h username password totp_secret now masked options).
Local Abbreviation flow := (login_flow h username password totp_secret now masked options).

(** The [try] statement after its body has raised: the handler, then
    the [finally]. *)
Lemma session_after_raise (s s1 : State) (e : Exception) :
  flow (mkState (world s) (trace s) None) = (s1, Raise e) ->
  exists s' t1 t2,
    session s = (s', Return false) /\
    trace s' = trace s1 ++ [Logged ERROR (msg_exception masked now e);
                            Logged EXCEPTION (exc_text e);
                            SendTg (msg_exception masked now e)]
                 ++ t1 ++ match driver s1 with
                          | Some d => [Called (save_screenshot d error_png)]
                          | None => []
                          end ++ t2 /\
    Forall tg_effect t1 /\ Forall closing t2.
Proof.
  intros Hf. unfold browser_session, bind, set_driver, try_finally, try_except.
  rewrite Hf.
  destruct (on_exception_run e s1) as [w [t1 [Ht1 Hq1]]]. rewrite Ht1.
  match goal with
  | |- context [close_browser ?s0] =>
    destruct (close_browser_run s0) as [w2 [t2 [Ht2 Hq2]]]
  end.
  rewrite Ht2. simpl. eexists _, t1, t2. split; [reflexivity|]. simpl.
  split; [|auto]. repeat (rewrite <- app_assoc; simpl). reflexivity.
Qed.

(** The [try] statement after its body has returned: the [finally]
    keeps the returned value. *)
Lemma session_after_return (s s1 : State) (v : bool) :
  flow (mkState (world s) (trace s) None) = (s1, Return v) ->
  exists s' t,
    session s = (s', Return v) /\ trace s' = trace s1 ++ t /\ Forall closing t.
Proof.
  intros Hf. unfold browser_session, bind, set_driver, try_finally, try_except.
  rewrite Hf.
  destruct (close_browser_run s1) as [w2 [t2 [Ht2 Hq2]]].
  rewrite Ht2. simpl. eexists _, t2. auto.
Qed.

(** The body of the [try] never falls off its end: it returns or raises. *)
Lemma flow_never_normal (s s1 : State) (a : unit) :
  flow s <> (s1, Normal a).
Proof.
  unfold login_flow, bind.
  destruct (flow_to_result _ _ _ _ _ _ _ s) as [s2 [[u p]|v|e]]; try discriminate.
  unfold report_result. unfold_monad.
  destruct (classify u p); simpl;
    match goal with
    | |- context [send_tg_message h ?m ?s0] =>
      destruct (send_tg_message_run h m s0) as [w [t [Ht _]]]; rewrite Ht
    end; discriminate.
Qed.

(** The [try] statement never lets an exception through, and always
    ends the call with a returned value. *)
Lemma session_returns (s : State) :
  exists s' v, session s = (s', Return v).
Proof.
  destruct (flow (mkState (world s) (trace s) None)) as [s1 [a|v|e]] eqn:Hf.
  - exfalso. exact (flow_never_normal _ _ _ Hf).
  - destruct (session_after_return s s1 v Hf) as [s' [t [Hs _]]]. eauto.
  - destruct (session_after_raise s s1 e Hf) as [s' [t1 [t2 [Hs _]]]]. eauto.
Qed.

Lemma report_result_run (final_url page_text : str) (s : State) :
  let b := classify final_url page_text in
  let msg := if b then msg_success masked now final_url
             else msg_failure masked now in
  exists w t,
    report_result h now masked final_url page_text s =
      (mkState w (trace s ++ Logged (if b then SUCCESS else ERROR) msg
                    :: SendTg msg :: t) (driver s), Return b)
    /\ Forall tg_effect t.
Proof.
  intros b msg. subst b msg. unfold report_result. unfold_monad.
  destruct (classify final_url page_text); simpl;
    match goal with
    | |- context [send_tg_message h ?m ?s0] =>
      destruct (send_tg_message_run h m s0) as [w [t [Ht Hq]]]; rewrite Ht
    end; simpl; exists w, t; rewrite <- app_assoc; auto.
Qed.

Lemma flow_after_result (s s1 : State) (final_url page_text : str) :
  flow_to_result h username password totp_secret now masked options s
    = (s1, Normal (final_url, page_text)) ->
  flow s = report_result h now masked final_url page_text s1.
Proof. intros Hf. unfold login_flow, bind. rewrite Hf. reflexivity. Qed.
End Session.

(** ** [run_login] as a whole *)

Section Whole.
Context `{Platform}.
Variable h : Host.

Lemma run_login_finish (w : World) :
  run_login h w = finish (run_login_body h (fresh w)).
Proof. reflexivity. Qed.

Lemma run_login_session (w : World) (s0 : State) (masked : str) (options : Options) :
  preamble h (fresh w) = (s0, Normal (masked, options)) ->
  run_login h w =
    finish (browser_session h (username_of h) (password_of h) (totp_secret_of h)
              (strftime_now h) masked options s0).
Proof.
  intros Hp. rewrite run_login_finish. unfold run_login_body, bind.
  rewrite Hp. reflexivity.
Qed.

Lemma preamble_fresh (w : World) (s0 : State) (masked : str) (options : Options) :
  preamble h (fresh w) = (s0, Normal (masked, options)) ->
  mkState (world s0) (trace s0) None = s0.
Proof.
  intros Hp. apply preamble_normal in Hp as [path [_ [_ [_ [_ [_ ->]]]]]].
  reflexivity.
Qed.
End Whole.


Lemma existsb_false_Forall {A} (f : A -> bool) (P : A -> Prop) (l : list A) :
  (forall x, P x -> f x = false) -> Forall P l -> existsb f l = false.
Proof.
  intros Hf Hl. induction Hl as [|x l Hx _ IH]; simpl; [reflexivity|].
  rewrite (Hf x Hx), IH. reflexivity.
Qed.

Lemma notifications_app (t1 t2 : list event) :
  notifications (t1 ++ t2) = notifications t1 ++ notifications t2.
Proof. apply omap_app. Qed.

Lemma notifications_tg_effect (t : list event) :
  Forall tg_effect t -> notifications t = [].
Proof.
  intros Ht. induction Ht as [|ev t Hev _ IH]; [reflexivity|].
  destruct ev; simpl in *; solve [contradiction | exact IH].
Qed.

Lemma notifications_closing (t : list event) :
  Forall closing t -> notifications t = [].
Proof.
  intros Ht. induction Ht as [|ev t Hev _ IH]; [reflexivity|].
  destruct ev; simpl in *; solve [contradiction | exact IH].
Qed.

Lemma first_existing_found (h : Host) (l : list str) :
  first_found h l (first_existing h l).
Proof.
  induction l as [|p l IH]; simpl.
  - intros p [].
  - destruct (path_exists h p) eqn:Hp.
    + exists 0%nat. repeat split; [exact Hp|]. intros j q Hj. lia.
    + destruct (first_existing h l) as [r|]; simpl in *.
      * destruct IH as [i [Hi [Hr Hbefore]]]. exists (S i). repeat split; auto.
        intros [|j] q Hj Hq; simpl in Hq.
        -- injection Hq as <-. exact Hp.
        -- apply (Hbefore j q); [lia | exact Hq].
      * intros q [<- | Hq]; auto.
Qed.

(** C5: [find_chrome] and [find_chromedriver] return the first existing
    path of their candidate lists, or None; when [find_chrome] returns
    None to [run_login], the call notifies and returns False without
    starting a browser; a None from [find_chromedriver] does not stop
    the run, which goes on to start the browser without a driver path. *)
Theorem browser_acquisition `{Platform} (h : Host) (w : World) :
  first_found h
    [py "/usr/bin/chromium"; py "/usr/bin/chromium-browser";
     py "/usr/bin/google-chrome"; py "/usr/bin/google-chrome-stable"]
    (find_chrome h) /\
  first_found h
    [py "/usr/bin/chromedriver"; py "/usr/local/bin/chromedriver"]
    (find_chromedriver h) /\
  (forall masked,
     mask_account (username_of h) = inr masked ->
     username_of h <> [] -> password_of h <> [] ->
     find_chrome h = None ->
     exists s', run_login h w = (s', inr (Some false)) /\
                notifications (trace s') = [msg_no_chromium masked (strftime_now h)] /\
                browser_started (trace s') = false) /\
  (forall s0 masked options,
     preamble h (fresh w) = (s0, Normal (masked, options)) ->
     find_chromedriver h = None ->
     In (Called (webdriver_Chrome None options)) (trace (run_login h w).1)).
Proof.
  split; [apply first_existing_found|]. split; [apply first_existing_found|]. split.
  - intros masked Hm Hu Hp Hc.
    destruct (preamble_no_chromium h masked (fresh w) Hm Hu Hp Hc) as [w1 [t [Hr Ht]]].
    rewrite run_login_finish. unfold run_login_body, bind. rewrite Hr. simpl.
    eexists. split; [reflexivity|]. simpl. split.
    + rewrite (notifications_tg_effect t Ht). reflexivity.
    + apply (existsb_false_Forall _ tg_effect); [|exact Ht].
      intros [c| | |]; simpl; try tauto. destruct c; simpl; tauto.
  - intros s0 masked options Hp Hd.
    rewrite (run_login_session h w s0 masked options Hp).
    match goal with
    | |- context [browser_session ?a ?b ?c ?d ?e ?f ?g s0] =>
      assert (Hv : visits (Called (webdriver_Chrome None options))
                     (browser_session a b c d e f g))
    end.
    { unfold browser_session. apply visits_bind_r.
      - apply emits_set_driver.
      - intros s. exists tt. reflexivity.
      - intros _. apply visits_try_finally; [|apply emits_close_browser; auto].
        apply visits_try_except; [|intros; apply emits_on_exception; auto].
        unfold login_flow. apply visits_bind_l;
          [|intros [u p]; apply emits_report_result; auto].
        unfold flow_to_result. apply visits_bind_l.
        2:{ intros d. emits_step; [apply emits_check_2fa; auto|].
            emits_step; [apply emits_check_authorize | apply emits_read_result]; auto. }
        unfold flow_to_2fa. apply visits_bind_l.
        2:{ intros d. emits_step; [apply emits_visit; auto|].
            emits_step; [apply emits_click_github; auto|].
            emits_step; [apply emits_fill_login; auto | emits_step]. }
        unfold start_browser. rewrite Hd. apply visits_bind_l.
        2:{ intros d. emits_walk. }
        apply visits_bind_r.
        + emits_walk.
        + intros s. exists tt. reflexivity.
        + intros _. apply visits_bind_l; [|intros; emits_walk].
          apply spec_do; intros; left; reflexivity. }
    destruct (Hv s0) as [t [Ht Hin]].
    destruct (browser_session _ _ _ _ _ _ _ s0) as [s' [a|v|e]]; simpl in *;
      rewrite Ht; apply in_or_app; auto.
Qed.

Lemma screenshot_attempted_app (t1 t2 : list event) :
  screenshot_attempted (t1 ++ t2) = screenshot_attempted t1 || screenshot_attempted t2.
Proof. apply existsb_app. Qed.

Lemma no_screenshot_tg_effect (t : list event) :
  Forall tg_effect t -> screenshot_attempted t = false.
Proof.
  apply existsb_false_Forall. intros [c| | |]; simpl; try tauto.
  destruct c; simpl; tauto.
Qed.

Lemma no_screenshot_closing (t : list event) :
  Forall closing t -> screenshot_attempted t = false.
Proof.
  apply existsb_false_Forall. intros [c| | |]; simpl; try tauto.
  destruct c; simpl; tauto.
Qed.







Lemma browser_acquisition_witness :
  (exists s',
     run_login (H := site usual) host_without_chrome Blank = (s', inr (Some false)) /\
     browser_started (trace s') = false) /\
  In (Called (webdriver_Chrome None (chrome_options (py "/usr/bin/google-chrome"))))
     (trace (run_login (H := site usual) host_without_chromedriver Blank).1).
Proof.
  split.
  - destruct (@browser_acquisition (site usual) host_without_chrome Blank)
      as [_ [_ [Hnone _]]].
    destruct (Hnone (py "oct***@example.com")) as [s' [Hr [_ Hb]]].
    + vm_compute. reflexivity.
    + vm_compute. discriminate.
    + vm_compute. discriminate.
    + vm_compute. reflexivity.
    + exists s'. auto.
  - destruct (@browser_acquisition (site usual) host_without_chromedriver Blank)
      as [_ [_ [_ Hdrv]]].
    apply (Hdrv (preamble (H := site usual) host_without_chromedriver
                   (fresh (H := site usual) Blank)).1
             (py "oct***@example.com")).
    + vm_compute. reflexivity.
    + vm_compute. reflexivity.
Defined.

(** C6 (the code departs from the claim): [mask_account] is called on
    line 98, before the credentials are checked on line 100.  With a
    username whose local part is empty the call ends in IndexError before
    anything is logged or notified, also when GH_PASSWORD is missing and
    the claim promises a notification and False. *)
Theorem missing_password_is_not_reported `{Platform} (h : Host) (w : World)
    (domain : str) :
  username_of h = py "@" ++ domain ->
  run_login h w = (fresh w, inl IndexError).
Proof.
  intros Hu. rewrite run_login_finish. unfold run_login_body, bind.
  rewrite (preamble_raises h IndexError (fresh w)); [reflexivity|].
  rewrite Hu. apply mask_account_at.
Qed.

Lemma missing_password_is_not_reported_witness :
  absent_or_blank host_with_handle (py "GH_PASSWORD") /\
  run_login (H := site usual) host_with_handle Blank
    = (fresh (H := site usual) Blank, inl IndexError).
Proof.
  split.
  - vm_compute. exact I.
  - apply (@missing_password_is_not_reported (site usual) host_with_handle Blank
             (py "octocat")).
    vm_compute. reflexivity.
Defined.

(** ** The 2FA step *)

Lemma typed_keys_app (t1 t2 : list event) :
  typed_keys (t1 ++ t2) = typed_keys t1 ++ typed_keys t2.
Proof. apply omap_app. Qed.

Lemma submit_clicked_app (t1 t2 : list event) :
  submit_clicked (t1 ++ t2) = submit_clicked t1 || submit_clicked t2.
Proof. apply existsb_app. Qed.

Section TwoFactor.
Context `{Platform}.

(** The typing loop of lines 247-249. *)
Lemma type_loop (field : WebElement) (token : str) :
  spec (for_in token (fun char => do (send_keys field [char]) ;; sleep (secs 1)))
    (fun t c =>
       submit_clicked t = false /\
       ((c = Normal tt /\ typed_keys t = one_by_one field token) \/
        (exists e n, c = Raise e /\
                     typed_keys t = one_by_one field (take n token)))).
Proof.
  induction token as [|char token IH]; intros s.
  - exists []. simpl. rewrite app_nil_r. auto.
  - destruct (for_in (char :: token) _ s) as [s' c] eqn:Hrun. cbn [fst snd].
    simpl for_in in Hrun. rewrite bind_bind in Hrun. step_do Hrun.
    + injection Hrun as <- <-. exists [Called (send_keys field [char])].
      split; [reflexivity|]. split; [reflexivity|]. right. exists e, 1%nat.
      split; [reflexivity|]. simpl. destruct token; reflexivity.
    + step_emit Hrun.
      destruct (spec_run _ _ _ _ _ IH Hrun) as [t [Ht [Hc Hk]]].
      cbn [trace] in Ht.
      exists (Called (send_keys field [char]) :: Slept (secs 1) :: t).
      rewrite Ht, <- !app_assoc. split; [reflexivity|]. split; [exact Hc|].
      destruct Hk as [[-> Hk] | [e [n [-> Hk]]]].
      * left. split; [reflexivity|]. simpl. rewrite Hk. reflexivity.
      * right. exists e, (S n). split; [reflexivity|]. simpl. rewrite Hk. reflexivity.
Qed.

Lemma startswith_app (p r : str) : startswith p (p ++ r) = true.
Proof. apply startswith_spec. exists r. reflexivity. Qed.

(** The loop over the submit selectors sends no keys, and reports
    whether a button was clicked. *)
Lemma click_submit_spec (d : WebDriver) (selectors : list str) :
  spec (click_submit d selectors)
    (fun t c => typed_keys t = [] /\
                exists b, c = Normal b /\ submit_clicked t = b).
Proof.
  induction selectors as [|selector rest IH]; intros s.
  - exists []. simpl. rewrite app_nil_r. eauto.
  - destruct (click_submit d (selector :: rest) s) as [s' c] eqn:Hrun.
    cbn [fst snd]. cbn [click_submit] in Hrun.
    unfold bind at 1 in Hrun. unfold try_except at 1 in Hrun.
    step_do Hrun.
    + destruct (spec_run _ _ _ _ _ IH Hrun) as [t [Ht [Hk [b [-> Hb]]]]].
      cbn [trace] in Ht. exists (Called (find_element d (CSS_SELECTOR selector)) :: t).
      rewrite Ht, <- app_assoc. split; [reflexivity|]. split; [exact Hk|].
      exists b. auto.
    + step_do Hrun.
      * destruct (spec_run _ _ _ _ _ IH Hrun) as [t [Ht [Hk [b [-> Hb]]]]].
        cbn [trace] in Ht.
        eexists (Called (find_element d (CSS_SELECTOR selector)) :: Called (click _) :: t).
        rewrite Ht, <- !app_assoc. split; [reflexivity|]. split; [exact Hk|].
        exists b. auto.
      * step_emit Hrun. injection Hrun as <- <-.
        eexists [Called (find_element d (CSS_SELECTOR selector)); Called (click _);
                 Logged INFO (py "已点击提交按钮: " ++ selector)].
        cbn [trace]. rewrite <- !app_assoc. split; [reflexivity|].
        split; [reflexivity|]. exists true. split; [reflexivity|].
        unfold submit_clicked. cbn [existsb]. rewrite startswith_app. reflexivity.
Qed.

Lemma other_logs_are_not_clicks :
  startswith (py "已点击提交按钮: ") (py "已通过 JS 提交表单") = false /\
  startswith (py "已点击提交按钮: ") (py "已按回车提交") = false /\
  startswith (py "已点击提交按钮: ") (py "已输入 2FA 验证码") = false.
Proof. vm_compute. auto. Qed.

Lemma js_submit_spec (d : WebDriver) (e : Exception) :
  spec (js_submit d e)
    (fun t c => c = Normal tt /\ typed_keys t = [] /\ submit_clicked t = false).
Proof.
  intros s. destruct (js_submit d e s) as [s' c] eqn:Hrun. cbn [fst snd].
  unfold js_submit in Hrun. step_emit Hrun. unfold try_except at 1 in Hrun.
  step_do Hrun; [|step_do Hrun; [|last_emit Hrun]];
    injection Hrun as <- <-; cbn [trace]; rewrite <- ?app_assoc;
    eexists; (split; [reflexivity|]); (split; [reflexivity|]);
    (split; [reflexivity|]).
  - reflexivity.
  - reflexivity.
  - unfold submit_clicked. cbn [app existsb orb].
    rewrite (proj1 other_logs_are_not_clicks). reflexivity.
Qed.

Lemma submit_totp_spec (d : WebDriver) :
  spec (submit_totp d)
    (fun t c =>
       c = Normal tt /\
       (typed_keys t = [] \/
        exists field', typed_keys t = [(field', Keys_RETURN)] /\
                       submit_clicked t = false)).
Proof.
  intros s. destruct (submit_totp d s) as [s' c] eqn:Hrun. cbn [fst snd].
  unfold submit_totp in Hrun. unfold try_except at 1 in Hrun.
  unfold bind at 1 in Hrun.
  destruct (click_submit d submit_selectors s) as [s1 c1] eqn:Hclick.
  destruct (spec_run _ _ _ _ _ (click_submit_spec d submit_selectors) Hclick)
    as [t1 [Ht1 [Hk1 [b [-> Hb]]]]].
  destruct b.
  - injection Hrun as <- <-. exists t1. auto.
  - step_do Hrun.
    + destruct (spec_run _ _ _ _ _ (js_submit_spec d _) Hrun)
        as [t2 [Ht2 [-> [Hk2 Hc2]]]].
      cbn [trace] in Ht2. eexists (t1 ++ _ :: t2).
      rewrite Ht2, Ht1, <- !app_assoc. split; [reflexivity|]. split; [reflexivity|].
      left. rewrite typed_keys_app, Hk1. simpl. exact Hk2.
    + step_do Hrun.
      * destruct (spec_run _ _ _ _ _ (js_submit_spec d _) Hrun)
          as [t2 [Ht2 [-> [Hk2 Hc2]]]].
        cbn [trace] in Ht2. eexists (t1 ++ _ :: _ :: t2).
        rewrite Ht2, Ht1, <- !app_assoc. split; [reflexivity|]. split; [reflexivity|].
        right. eexists. rewrite typed_keys_app, Hk1, submit_clicked_app, Hb. simpl.
        rewrite Hk2. split; [reflexivity|]. exact Hc2.
      * last_emit Hrun. injection Hrun as <- <-. cbn [trace].
        eexists (t1 ++ [_; _; _]).
        rewrite Ht1, <- !app_assoc. split; [reflexivity|]. split; [reflexivity|].
        right. eexists. rewrite typed_keys_app, Hk1, submit_clicked_app, Hb. simpl.
        split; reflexivity.
Qed.
End TwoFactor.




(** ** Which parts of the script can return *)

Section NeverReturns.
Context `{Platform}.

Lemma nr_ret {A} (a : A) : never_returns (ret a).
Proof. intros s v. discriminate. Qed.

Lemma nr_raise {A} e : never_returns (@raise _ A e).
Proof. intros s v. discriminate. Qed.

Lemma nr_emit ev : never_returns (emit ev).
Proof. intros s v. discriminate. Qed.

Lemma nr_do c : never_returns (do c).
Proof.
  intros s v. unfold do.
  destruct (respond c (world s)) as [w [e|r]]; discriminate.
Qed.

Lemma nr_bind {A B} (m : M A) (k : A -> M B) :
  never_returns m -> (forall a, never_returns (k a)) -> never_returns (bind m k).
Proof.
  intros Hm Hk s v. unfold bind. specialize (Hm s).
  destruct (m s) as [s1 [a|v1|e]]; simpl in *.
  - apply Hk.
  - exfalso. exact (Hm v1 eq_refl).
  - discriminate.
Qed.

Lemma nr_try_except {A} (body : M A) handler :
  never_returns body -> (forall e, never_returns (handler e)) ->
  never_returns (try_except body handler).
Proof.
  intros Hm Hk s v. unfold try_except. specialize (Hm s).
  destruct (body s) as [s1 [a|v1|e]]; simpl in *.
  - discriminate.
  - exfalso. exact (Hm v1 eq_refl).
  - apply Hk.
Qed.

Lemma nr_for_in {A} (l : list A) body :
  (forall x, never_returns (body x)) -> never_returns (for_in l body).
Proof.
  intros Hb. induction l as [|x l IH]; simpl.
  - apply nr_ret.
  - apply nr_bind; auto.
Qed.
End NeverReturns.

Ltac nr_step :=
  lazymatch goal with
  | |- never_returns (bind ?m ?k) => apply (nr_bind m k); [|intros]
  | |- never_returns (try_except ?b ?k) => apply (nr_try_except b k); [|intros]
  | |- never_returns (for_in ?l ?b) => apply (nr_for_in l b); intros
  | |- never_returns (ret ?a) => apply (nr_ret a)
  | |- never_returns (raise ?e) => apply (nr_raise e)
  | |- never_returns (emit ?ev) => apply (nr_emit ev)
  | |- never_returns (do ?c) => apply (nr_do c)
  | |- never_returns (set_driver ?d) => intros ? ?; discriminate
  | |- never_returns (if ?b then _ else _) => destruct b
  | |- never_returns (match ?x with _ => _ end) => destruct x
  end.

Ltac nr_walk := repeat (autounfold with script; nr_step).

Section ReturnPaths.
Context `{Platform}.

Lemma nr_click_submit d selectors : never_returns (click_submit d selectors).
Proof. induction selectors as [|sel rest IH]; simpl; nr_walk; assumption. Qed.

Lemma nr_enter_totp secret d : never_returns (enter_totp secret d).
Proof. nr_walk. apply nr_click_submit. Qed.

Lemma nr_flow_to_2fa h u p o : never_returns (flow_to_2fa h u p o).
Proof. nr_walk. Qed.

Lemma nr_check_authorize d : never_returns (check_authorize d).
Proof. nr_walk. Qed.

Lemma nr_read_result d : never_returns (read_result d).
Proof. nr_walk. Qed.

Lemma nr_on_2fa_page d : never_returns (on_2fa_page d).
Proof. nr_walk. Qed.

Lemma notifications_quiet (t : list event) :
  Forall not_send_tg t -> notifications t = [].
Proof.
  intros Ht. induction Ht as [|ev t Hev _ IH]; [reflexivity|].
  destruct ev; simpl in *; solve [contradiction | exact IH].
Qed.

Lemma tg_effect_quiet (t : list event) : Forall tg_effect t -> Forall not_send_tg t.
Proof.
  intros Ht. eapply Forall_impl; [exact Ht|]. intros [c| | |]; simpl; tauto.
Qed.

Lemma closing_quiet (t : list event) : Forall closing t -> Forall not_send_tg t.
Proof.
  intros Ht. eapply Forall_impl; [exact Ht|]. intros [c| | |]; simpl; tauto.
Qed.

Lemma last_notification (t1 t2 : list event) (msg : str) :
  Forall not_send_tg t2 ->
  last (notifications (t1 ++ SendTg msg :: t2)) = Some msg.
Proof.
  intros Ht2. rewrite notifications_app. simpl.
  rewrite (notifications_quiet t2 Ht2). apply last_snoc.
Qed.

(** A notification, a screenshot, and [return False]: the tail shared by
    the two early exits of the 2FA step. *)
Lemma notify_and_return h (msg path : str) d (l : level) (s s' : State)
    (c : completion unit) :
  (log l msg ;; send_tg_message h msg ;; do (save_screenshot d path) ;;
   return_ false) s = (s', c) ->
  (c = Return false \/ exists e, c = Raise e) /\
  exists t, trace s' = trace s ++ Logged l msg :: SendTg msg :: t /\
            Forall not_send_tg t.
Proof.
  intros Hrun. step_emit Hrun. unfold bind at 1 in Hrun.
  match type of Hrun with
  | context [send_tg_message h msg ?s0] =>
    destruct (send_tg_message_run h msg s0) as [w [t [Ht Hq]]]
  end.
  rewrite Ht in Hrun. cbn [trace driver] in Hrun.
  assert (Hquiet : Forall not_send_tg (t ++ [Called (save_screenshot d path)])).
  { apply Forall_app. split; [apply tg_effect_quiet; exact Hq|]. repeat constructor. }
  step_do Hrun; injection Hrun as <- <-; (split; [eauto|]); cbn [trace];
    exists (t ++ [Called (save_screenshot d path)]); (split; [|exact Hquiet]);
    rewrite <- !app_assoc; reflexivity.
Qed.

(** The two [return]s of the 2FA step: each follows a notification. *)
Lemma check_2fa_returns h secret now masked d (s s' : State) (v : bool) :
  check_2fa h secret now masked d s = (s', Return v) ->
  v = false /\
  exists t msg,
    trace s' = trace s ++ t /\ last (notifications t) = Some msg /\
    (msg = msg_2fa_no_secret masked now \/ exists e, msg = msg_2fa_failed masked now e).
Proof.
  intros Hrun. unfold check_2fa in Hrun. step_emit Hrun.
  unfold bind at 1 in Hrun.
  match type of Hrun with
  | context [on_2fa_page d ?s0] => pose proof (nr_on_2fa_page d s0 v) as Hnr
  end.
  destruct (on_2fa_page d _) as [s2 c2] eqn:Hpage.
  destruct (spec_run _ _ _ _ _
              (emits_on_2fa_page not_send_tg (fun _ => I) d) Hpage) as [tp [Htp Hqp]].
  cbn [trace] in Htp.
  destruct c2 as [[|]|v2|e]; try discriminate.
  2:{ exfalso. apply Hnr. simpl. congruence. }
  clear Hnr. step_emit Hrun. unfold bind at 1 in Hrun.
  destruct secret as [|c0 secret]; cbn [truthy negb] in Hrun.
  - match type of Hrun with
    | context [bind (log ?l ?m) ?k ?s0] =>
      destruct (bind (log l m) k s0) as [s3 c3] eqn:Hn
    end.
    destruct (notify_and_return _ _ _ _ _ _ _ _ Hn) as [Hc [t [Ht Hq]]].
    cbn [trace] in Ht.
    destruct Hc as [-> | [e ->]]; [|discriminate].
    injection Hrun as <- <-. split; [reflexivity|].
    eexists ((Slept (secs 20) :: tp ++ [Logged INFO _; Logged ERROR _])
               ++ SendTg _ :: t), _.
    split; [rewrite Ht, Htp; repeat (rewrite <- app_assoc; cbn [app]); reflexivity|].
    split; [|left; reflexivity].
    apply last_notification. exact Hq.
  - unfold ret at 1 in Hrun. cbn beta iota in Hrun. unfold try_except at 1 in Hrun.
    match type of Hrun with
    | context [enter_totp ?x d ?s0] =>
      pose proof (nr_enter_totp x d s0 v) as Hnr;
      destruct (enter_totp x d s0) as [s3 c3] eqn:He;
      destruct (spec_run _ _ _ _ _
                  (emits_enter_totp not_send_tg (fun _ _ => I) (fun _ => I)
                     (fun _ => I) x d) He) as [te [Hte Hqe]]
    end.
    cbn [trace] in Hte.
    destruct c3 as [a|v3|e]; try discriminate.
    { exfalso. apply Hnr. simpl. congruence. }
    destruct (notify_and_return _ _ _ _ _ _ _ _ Hrun) as [_ [t [Ht Hq]]].
    assert (v = false) as ->.
    { destruct (notify_and_return _ _ _ _ _ _ _ _ Hrun) as [[Hc | [e' Hc]] _];
        congruence. }
    split; [reflexivity|].
    eexists ((Slept (secs 20) :: tp ++ Logged INFO _ :: te ++ [Logged ERROR _])
               ++ SendTg _ :: t), _.
    split.
    { rewrite Ht, Hte, Htp. repeat (rewrite <- app_assoc; cbn [app]). reflexivity. }
    split; [|right; eexists; reflexivity].
    apply last_notification. exact Hq.
Qed.
End ReturnPaths.

Section Reported.
Context `{Platform}.
Variable h : Host.
Variables username password totp_secret now masked : str.
Variable options : Options.

Lemma last_notification_app (t1 t2 : list event) (msg : str) :
  last (notifications t2) = Some msg ->
  last (notifications (t1 ++ t2)) = Some msg.
Proof. intros Ht. rewrite notifications_app, last_app, Ht. reflexivity. Qed.

Lemma last_notification_quiet (t1 t2 : list event) (msg : str) :
  last (notifications t1) = Some msg -> Forall not_send_tg t2 ->
  last (notifications (t1 ++ t2)) = Some msg.
Proof.
  intros Ht Hq. rewrite notifications_app, (notifications_quiet t2 Hq), app_nil_r.
  exact Ht.
Qed.

Lemma flow_to_result_returns (s s' : State) (v : bool) :
  flow_to_result h username password totp_secret now masked options s
    = (s', Return v) ->
  v = false /\
  exists t msg,
    trace s' = trace s ++ t /\ last (notifications t) = Some msg /\
    (msg = msg_2fa_no_secret masked now \/ exists e, msg = msg_2fa_failed masked now e).
Proof.
  intros Hrun. unfold flow_to_result in Hrun. unfold bind at 1 in Hrun.
  pose proof (nr_flow_to_2fa h username password options s v) as Hnr.
  destruct (flow_to_2fa h username password options s) as [s2 c2] eqn:Hpre.
  destruct (spec_run _ _ _ _ _
              (emits_flow_to_2fa (fun _ => True) (fun _ _ => I) (fun _ => I)
                 (fun _ => I) h username password options) Hpre) as [t0 [Ht0 _]].
  destruct c2 as [d|v2|e]; try discriminate.
  2:{ exfalso. apply Hnr. simpl. congruence. }
  clear Hnr. unfold bind at 1 in Hrun.
  destruct (check_2fa h totp_secret now masked d s2) as [s3 c3] eqn:Hc.
  destruct c3 as [a|v3|e]; try discriminate.
  - exfalso. unfold bind at 1 in Hrun.
    pose proof (nr_check_authorize d s3 v) as Hnr.
    destruct (check_authorize d s3) as [s4 [a4|v4|e4]]; try discriminate.
    + pose proof (nr_read_result d s4 v) as Hnr2. rewrite Hrun in Hnr2.
      apply Hnr2. reflexivity.
    + apply Hnr. simpl. congruence.
  - injection Hrun as <- <-.
    destruct (check_2fa_returns _ _ _ _ _ _ _ _ Hc) as [-> [t [msg [Ht [Hl Hm]]]]].
    split; [reflexivity|]. exists (t0 ++ t), msg.
    rewrite Ht, Ht0, <- app_assoc. split; [reflexivity|]. split; [|exact Hm].
    apply last_notification_app. exact Hl.
Qed.

(** Every [return] inside the body of the outer [try] follows a
    notification that describes it. *)
Lemma login_flow_returns (s s' : State) (v : bool) :
  login_flow h username password totp_secret now masked options s
    = (s', Return v) ->
  exists t msg,
    trace s' = trace s ++ t /\ last (notifications t) = Some msg /\
    describes masked now msg v.
Proof.
  intros Hrun. unfold login_flow in Hrun. unfold bind at 1 in Hrun.
  destruct (flow_to_result h username password totp_secret now masked options s)
    as [s2 c2] eqn:Hres.
  destruct c2 as [[u p]|v2|e]; try discriminate.
  - destruct (spec_run _ _ _ _ _
                (emits_flow_to_result (fun _ => True) (fun _ _ => I) (fun _ => I)
                   (fun _ => I) (fun _ => I) h username password totp_secret now
                   masked options) Hres) as [t0 [Ht0 _]].
    destruct (report_result_run h masked now u p s2) as [w [t [Hr Hq]]].
    rewrite Hr in Hrun. injection Hrun as <- <-. cbn [trace].
    eexists (t0 ++ [_] ++ SendTg _ :: t), _.
    split; [rewrite Ht0; repeat (rewrite <- app_assoc; cbn [app]); reflexivity|].
    split.
    + rewrite app_assoc. apply last_notification. apply tg_effect_quiet. exact Hq.
    + destruct (classify u p); [apply classified_success | apply classified_failure].
  - injection Hrun as <- <-.
    destruct (flow_to_result_returns _ _ _ Hres) as [-> [t [msg [Ht [Hl Hm]]]]].
    exists t, msg. split; [exact Ht|]. split; [exact Hl|].
    destruct Hm as [-> | [e ->]];
      [apply two_factor_without_secret | apply two_factor_fill_failure].
Qed.
End Reported.



(** ** The order of the steps *)

Lemma steps_app (t1 t2 : list event) : steps (t1 ++ t2) = steps t1 ++ steps t2.
Proof. apply omap_app. Qed.

Lemma entries_app (t1 t2 : list event) : entries (t1 ++ t2) = entries t1 ++ entries t2.
Proof. apply omap_app. Qed.

Lemma steps_of_step (k : nat) (t : list event) :
  Forall (fun ev => step_of ev = None \/ step_of ev = Some k) t ->
  Forall (fun j => j = k) (steps t).
Proof.
  intros Ht. induction Ht as [|ev t Hev _ IH]; [constructor|].
  unfold steps in *. simpl. destruct Hev as [-> | ->]; [exact IH|].
  constructor; [reflexivity | exact IH].
Qed.

Lemma entries_of_step (k : nat) (t : list event) :
  Forall (of_step k) t -> entries t = [].
Proof.
  intros Ht. induction Ht as [|ev t [_ Hev] _ IH]; [reflexivity|].
  unfold entries in *. simpl. rewrite Hev. exact IH.
Qed.

Lemma of_step_weaken (k : nat) (t : list event) :
  Forall (of_step k) t ->
  Forall (fun ev => step_of ev = None \/ step_of ev = Some k) t.
Proof. intros Ht. eapply Forall_impl; [exact Ht|]. intros ev [Hs _]. exact Hs. Qed.

Lemma no_steps (t : list event) :
  Forall of_no_step t -> steps t = [] /\ entries t = [].
Proof.
  intros Ht. induction Ht as [|ev t [Hs He] _ [IHs IHe]]; [auto|].
  unfold steps, entries in *. simpl. rewrite Hs, He. auto.
Qed.

Lemma sorted_constant (k : nat) (l : list nat) :
  Forall (fun j => j = k) l -> StronglySorted le l.
Proof.
  intros Hl. induction Hl as [|j l -> Hl IH]; constructor; [exact IH|].
  eapply Forall_impl; [exact Hl|]. intros x ->. reflexivity.
Qed.

Lemma in_step_ordered (k : nat) (t : list event) : in_step k t -> ordered k k t.
Proof.
  intros [Hs He]. apply steps_of_step in Hs. repeat split.
  - exact (sorted_constant k _ Hs).
  - destruct He as [-> | ->]; repeat constructor.
  - eapply Forall_impl; [exact Hs|]. intros x ->. lia.
  - destruct He as [-> | ->]; repeat constructor; lia.
Qed.

Lemma ordered_silent (lo hi : nat) (t : list event) :
  Forall of_no_step t -> ordered lo hi t.
Proof.
  intros Ht. destruct (no_steps t Ht) as [Hs He]. unfold ordered.
  rewrite Hs, He. repeat split; constructor.
Qed.

Lemma ordered_weaken (a b a' b' : nat) (t : list event) :
  ordered a b t -> (a' <= a)%nat -> (b <= b')%nat -> ordered a' b' t.
Proof.
  intros [Hs [He [Hbs Hbe]]] Ha Hb. repeat split; try assumption.
  - eapply Forall_impl; [exact Hbs|]. simpl. intros x Hx. lia.
  - eapply Forall_impl; [exact Hbe|]. simpl. intros x Hx. lia.
Qed.

Lemma ordered_app (a b c d : nat) (t1 t2 : list event) :
  ordered a b t1 -> ordered c d t2 -> (b < c)%nat -> (a <= c)%nat -> (b <= d)%nat ->
  ordered a d (t1 ++ t2).
Proof.
  intros [Hs1 [He1 [Hbs1 Hbe1]]] [Hs2 [He2 [Hbs2 Hbe2]]] Hbc Hac Hbd.
  unfold ordered. rewrite steps_app, entries_app.
  rewrite List.Forall_forall in Hbs1, Hbe1, Hbs2, Hbe2.
  repeat split.
  - apply StronglySorted_app. repeat split; try assumption.
    intros x1 x2 H1 H2. apply list_elem_of_In in H1, H2.
    specialize (Hbs1 x1 H1). specialize (Hbs2 x2 H2). simpl in *. lia.
  - apply StronglySorted_app. repeat split; try assumption.
    intros x1 x2 H1 H2. apply list_elem_of_In in H1, H2.
    specialize (Hbe1 x1 H1). specialize (Hbe2 x2 H2). simpl in *. lia.
  - apply Forall_app. split; apply List.Forall_forall; intros x Hx;
      [specialize (Hbs1 x Hx) | specialize (Hbs2 x Hx)]; simpl in *; lia.
  - apply Forall_app. split; apply List.Forall_forall; intros x Hx;
      [specialize (Hbe1 x Hx) | specialize (Hbe2 x Hx)]; simpl in *; lia.
Qed.

Lemma ordered_app_silent_l (a b : nat) (t1 t2 : list event) :
  Forall of_no_step t1 -> ordered a b t2 -> ordered a b (t1 ++ t2).
Proof.
  intros H1 H2. destruct (no_steps t1 H1) as [Hs He]. unfold ordered in *.
  rewrite steps_app, entries_app, Hs, He. exact H2.
Qed.

Lemma ordered_app_silent_r (a b : nat) (t1 t2 : list event) :
  ordered a b t1 -> Forall of_no_step t2 -> ordered a b (t1 ++ t2).
Proof.
  intros H1 H2. destruct (no_steps t2 H2) as [Hs He]. unfold ordered in *.
  rewrite steps_app, entries_app, Hs, He, !app_nil_r. exact H1.
Qed.

Section Phases.
Context `{Platform}.

Lemma phased_silent {A} (lo hi : nat) (m : M A) :
  emits of_no_step m -> phased lo hi m.
Proof. intros Hm. eapply spec_conseq; [exact Hm|]. intros t c. simpl. apply ordered_silent. Qed.

Lemma phased_block {A} (k : nat) (m : M A) : block k m -> phased k k m.
Proof. intros Hm. eapply spec_conseq; [exact Hm|]. intros t c. simpl. apply in_step_ordered. Qed.

Lemma phased_weaken {A} (a b a' b' : nat) (m : M A) :
  phased a b m -> (a' <= a)%nat -> (b <= b')%nat -> phased a' b' m.
Proof.
  intros Hm Ha Hb. eapply spec_conseq; [exact Hm|]. intros t c Ht. simpl in Ht.
  exact (ordered_weaken _ _ _ _ _ Ht Ha Hb).
Qed.

Lemma phased_bind {A B} (a b c d : nat) (m : M A) (k : A -> M B) :
  phased a b m -> (forall x, phased c d (k x)) ->
  (b < c)%nat -> (a <= c)%nat -> (b <= d)%nat ->
  phased a d (bind m k).
Proof.
  intros Hm Hk Hbc Hac Hbd.
  apply (spec_bind m k (fun t _ => ordered a b t) (fun _ t _ => ordered c d t));
    [exact Hm | exact Hk | | |]; simpl.
  - intros. apply (ordered_app a b c d); assumption.
  - intros t v Ht. apply (ordered_weaken a b); [exact Ht | lia | lia].
  - intros t e Ht. apply (ordered_weaken a b); [exact Ht | lia | lia].
Qed.

Lemma phased_bind_silent_l {A B} (a b : nat) (m : M A) (k : A -> M B) :
  emits of_no_step m -> (forall x, phased a b (k x)) -> phased a b (bind m k).
Proof.
  intros Hm Hk.
  apply (spec_bind m k (fun t _ => Forall of_no_step t) (fun _ t _ => ordered a b t));
    [exact Hm | exact Hk | | |]; simpl.
  - intros. apply ordered_app_silent_l; assumption.
  - intros. apply ordered_silent. assumption.
  - intros. apply ordered_silent. assumption.
Qed.

Lemma phased_bind_silent_r {A B} (a b : nat) (m : M A) (k : A -> M B) :
  phased a b m -> (forall x, emits of_no_step (k x)) -> phased a b (bind m k).
Proof.
  intros Hm Hk.
  apply (spec_bind m k (fun t _ => ordered a b t) (fun _ t _ => Forall of_no_step t));
    [exact Hm | exact Hk | | |]; simpl; auto.
  intros. apply ordered_app_silent_r; assumption.
Qed.

Lemma phased_try_except_silent {A} (a b : nat) (body : M A) handler :
  phased a b body -> (forall e, emits of_no_step (handler e)) ->
  phased a b (try_except body handler).
Proof.
  intros Hm Hk.
  apply (spec_try_except body handler (fun t _ => ordered a b t)
           (fun _ t _ => Forall of_no_step t));
    [exact Hm | exact Hk | | |]; simpl; auto.
  intros. apply ordered_app_silent_r; assumption.
Qed.

Lemma phased_try_finally_silent {A} (a b : nat) (body : M A) final :
  phased a b body -> emits of_no_step final ->
  phased a b (try_finally body final).
Proof.
  intros Hm Hf.
  apply (spec_try_finally body final (fun t _ => ordered a b t)
           (fun t _ => Forall of_no_step t));
    [exact Hm | exact Hf |]; simpl.
  intros. apply ordered_app_silent_r; assumption.
Qed.

(** *** One step *)

Lemma block_quiet {A} (k : nat) (m : M A) : emits (of_step k) m -> block k m.
Proof.
  intros Hm. eapply spec_conseq; [exact Hm|]. intros t c Ht. simpl in Ht. split.
  - apply of_step_weaken. exact Ht.
  - left. apply (entries_of_step k). exact Ht.
Qed.

Lemma block_bind_l {A B} (k : nat) (m : M A) (f : A -> M B) :
  emits (of_step k) m -> (forall a, block k (f a)) -> block k (bind m f).
Proof.
  intros Hm Hf.
  apply (spec_bind m f (fun t _ => Forall (of_step k) t) (fun _ t _ => in_step k t));
    [exact Hm | exact Hf | | |]; simpl.
  - intros t1 a t2 c H1 [H2 H3]. split.
    + apply Forall_app. split; [apply of_step_weaken; exact H1 | exact H2].
    + rewrite entries_app, (entries_of_step k t1 H1). exact H3.
  - intros t v Ht. split; [apply of_step_weaken; exact Ht|].
    left. apply (entries_of_step k). exact Ht.
  - intros t e Ht. split; [apply of_step_weaken; exact Ht|].
    left. apply (entries_of_step k). exact Ht.
Qed.

Lemma block_entry {B} (k : nat) (ev : event) (f : unit -> M B) :
  step_of ev = Some k -> entry_of ev = Some k ->
  (forall a, emits (of_step k) (f a)) -> block k (bind (emit ev) f).
Proof.
  intros Hs He Hf.
  apply (spec_bind (emit ev) f (fun t _ => t = [ev]) (fun _ t _ => Forall (of_step k) t));
    [apply spec_emit; reflexivity | exact Hf | | |]; simpl.
  - intros t1 a t2 c -> H2. split.
    + constructor; [right; exact Hs | apply of_step_weaken; exact H2].
    + right. change ([ev] ++ t2) with ([ev] ++ t2). rewrite entries_app.
      rewrite (entries_of_step k t2 H2), app_nil_r.
      unfold entries. simpl. rewrite He. reflexivity.
  - intros t v ->. split; [constructor; [right; exact Hs | constructor]|].
    right. unfold entries. simpl. rewrite He. reflexivity.
  - intros t e ->. split; [constructor; [right; exact Hs | constructor]|].
    right. unfold entries. simpl. rewrite He. reflexivity.
Qed.
End Phases.

Lemma emits_weaken `{Platform} {A} (P Q : event -> Prop) (m : M A) :
  emits P m -> (forall ev, P ev -> Q ev) -> emits Q m.
Proof.
  intros Hm HPQ. eapply spec_conseq; [exact Hm|]. intros t c Ht. simpl in Ht.
  eapply Forall_impl; [exact Ht | exact HPQ].
Qed.

Lemma of_no_step_of_step (k : nat) (ev : event) : of_no_step ev -> of_step k ev.
Proof. intros [Hs He]. split; auto. Qed.

Section StepsOfBlocks.
Context `{Platform}.

Lemma silent_send_tg_message h text : emits of_no_step (send_tg_message h text).
Proof. unfold send_tg_message. emits_walk. Qed.

Lemma of_step_send_tg_message k h text : emits (of_step k) (send_tg_message h text).
Proof.
  apply (emits_weaken of_no_step); [apply silent_send_tg_message|].
  apply of_no_step_of_step.
Qed.

Lemma silent_start_browser h o : emits of_no_step (start_browser h o).
Proof. emits_walk. Qed.

Lemma silent_close_browser : emits of_no_step close_browser.
Proof. emits_walk. Qed.

Lemma silent_report_result h now masked u p :
  emits of_no_step (report_result h now masked u p).
Proof.
  unfold report_result.
  repeat first [apply silent_send_tg_message | emits_step | unfold log].
Qed.

Lemma silent_on_exception h now masked e :
  emits of_no_step (on_exception h now masked e).
Proof.
  unfold on_exception.
  repeat first [apply silent_send_tg_message | emits_step | unfold log, log_exception].
Qed.

Lemma silent_preamble h : emits of_no_step (preamble h).
Proof.
  unfold preamble.
  repeat first [apply silent_send_tg_message | emits_step | unfold log].
Qed.

Lemma block_visit d : block 1 (visit d).
Proof.
  unfold visit, log. apply block_entry; [vm_compute; reflexivity ..|].
  intros _. emits_walk.
Qed.

Lemma block_click_github d : block 2 (click_github d).
Proof.
  unfold click_github. unfold log at 1. apply block_entry; [vm_compute; reflexivity ..|].
  intros _. emits_walk.
Qed.

Lemma block_fill_login u p d : block 3 (fill_login u p d).
Proof.
  unfold fill_login.
  apply block_bind_l; [emits_walk|]. intros _.
  apply block_bind_l; [emits_walk|]. intros _.
  apply block_bind_l; [emits_walk|]. intros [|].
  - unfold log at 1. apply block_entry; [vm_compute; reflexivity ..|].
    intros _. emits_walk.
  - apply block_quiet. emits_walk.
Qed.

Lemma of_step_enter_totp secret d : emits (of_step 4) (enter_totp secret d).
Proof. unfold enter_totp, submit_totp, submit_selectors. cbn [click_submit]. emits_walk. Qed.

Lemma block_check_2fa h secret now masked d : block 4 (check_2fa h secret now masked d).
Proof.
  unfold check_2fa.
  apply block_bind_l; [emits_walk|]. intros _.
  apply block_bind_l; [emits_walk|]. intros [|].
  - unfold log at 1. apply block_entry; [vm_compute; reflexivity ..|].
    intros _.
    repeat first [apply of_step_send_tg_message | apply of_step_enter_totp
                 | emits_step | unfold log].
  - apply block_quiet. emits_walk.
Qed.

Lemma block_check_authorize d : block 5 (check_authorize d).
Proof.
  unfold check_authorize.
  apply block_bind_l; [emits_walk|]. intros _.
  apply block_bind_l; [emits_walk|]. intros u.
  destruct (contains _ _).
  - unfold log at 1. apply block_entry; [vm_compute; reflexivity ..|].
    intros _. emits_walk.
  - apply block_quiet. emits_walk.
Qed.

Lemma block_read_result d : block 6 (read_result d).
Proof.
  unfold read_result. unfold log at 1. apply block_entry; [vm_compute; reflexivity ..|].
  intros _. emits_walk.
Qed.
End StepsOfBlocks.

Section OrderOfSteps.
Context `{Platform}.
Variable h : Host.
Variables username password totp_secret now masked : str.
Variable options : Options.

Lemma phased_flow_to_2fa : phased 1 3 (flow_to_2fa h username password options).
Proof.
  unfold flow_to_2fa.
  apply phased_bind_silent_l; [apply silent_start_browser|]. intros d.
  apply (phased_bind 1 1 2 3); [apply phased_block, block_visit | | lia ..].
  intros _.
  apply (phased_bind 2 2 3 3); [apply phased_block, block_click_github | | lia ..].
  intros _.
  apply phased_bind_silent_r; [apply phased_block, block_fill_login|].
  intros _. apply emits_ret.
Qed.

Lemma phased_flow_to_result :
  phased 1 6 (flow_to_result h username password totp_secret now masked options).
Proof.
  unfold flow_to_result.
  apply (phased_bind 1 3 4 6); [apply phased_flow_to_2fa | | lia ..]. intros d.
  apply (phased_bind 4 4 5 6); [apply phased_block, block_check_2fa | | lia ..].
  intros _.
  apply (phased_bind 5 5 6 6); [apply phased_block, block_check_authorize | | lia ..].
  intros _. apply phased_block, block_read_result.
Qed.

Lemma phased_browser_session :
  phased 1 6 (browser_session h username password totp_secret now masked options).
Proof.
  unfold browser_session.
  apply phased_bind_silent_l; [apply emits_set_driver|]. intros _.
  apply phased_try_finally_silent; [|apply silent_close_browser].
  apply phased_try_except_silent; [|intros e; apply silent_on_exception].
  unfold login_flow.
  apply phased_bind_silent_r; [apply phased_flow_to_result|].
  intros [u p]. apply silent_report_result.
Qed.
End OrderOfSteps.


Example steps_of_a_full_run :
  steps (trace (run_login (H := site usual) typical_host Blank).1)
    = [1; 1; 2; 2; 3; 3; 3; 3; 3; 4; 4; 4; 4; 5; 5; 6; 6; 6]%nat /\
  entries (trace (run_login (H := site usual) typical_host Blank).1)
    = [1; 2; 3; 4; 5; 6]%nat.
Proof. vm_compute. split; reflexivity. Qed.

(** ** The password does not reach the notifications *)

Section Agreement.
Context `{Platform}.

Lemma alike_refl (s : State) : alike s s.
Proof. repeat split. Qed.

Lemma alike_snoc (s1 s2 : State) (ev1 ev2 : event) (w : World) :
  alike s1 s2 -> blank ev1 = blank ev2 ->
  alike (mkState w (trace s1 ++ [ev1]) (driver s1))
        (mkState w (trace s2 ++ [ev2]) (driver s2)).
Proof.
  intros [Hw [Hd Ht]] Hev. repeat split; simpl; [exact Hd|].
  rewrite !map_app, Ht. simpl. rewrite Hev. reflexivity.
Qed.

Lemma agree_ret {A} (a : A) : agree (ret a) (ret a).
Proof. intros s1 s2 Hs. split; [exact Hs | reflexivity]. Qed.

Lemma agree_return {A} v : agree (@return_ _ A v) (return_ v).
Proof. intros s1 s2 Hs. split; [exact Hs | reflexivity]. Qed.

Lemma agree_raise {A} e : agree (@raise _ A e) (raise e).
Proof. intros s1 s2 Hs. split; [exact Hs | reflexivity]. Qed.

Lemma agree_lift {A} (r : Exception + A) : agree (lift r) (lift r).
Proof. destruct r; [apply agree_raise | apply agree_ret]. Qed.

Lemma agree_emit ev : agree (emit ev) (emit ev).
Proof.
  intros s1 s2 Hs. split; [|reflexivity]. simpl.
  pose proof Hs as [Hw _]. rewrite Hw. apply alike_snoc; [exact Hs | reflexivity].
Qed.

Lemma agree_do c : agree (do c) (do c).
Proof.
  intros s1 s2 Hs. unfold do. pose proof Hs as [Hw _]. rewrite Hw.
  destruct (respond c (world s2)) as [w [e|a]]; simpl;
    (split; [|reflexivity]); apply alike_snoc; solve [exact Hs | reflexivity].
Qed.

Lemma agree_send_keys (Hobl : oblivious) e (keys1 keys2 : str) :
  agree (A := unit) (do (send_keys e keys1)) (do (send_keys e keys2)).
Proof.
  intros s1 s2 Hs. unfold do. pose proof Hs as [Hw _]. rewrite Hw.
  rewrite (Hobl e keys1 keys2 (world s2)).
  destruct (respond (send_keys e keys2) (world s2)) as [w [e0|a]]; simpl;
    (split; [|reflexivity]); apply alike_snoc; solve [exact Hs | reflexivity].
Qed.

Lemma agree_get_driver : agree get_driver get_driver.
Proof.
  intros s1 s2 Hs. split; [exact Hs|]. simpl. destruct Hs as [_ [Hd _]].
  rewrite Hd. reflexivity.
Qed.

Lemma agree_set_driver d : agree (set_driver d) (set_driver d).
Proof.
  intros s1 s2 [Hw [Hd Ht]]. split; [|reflexivity]. repeat split; assumption.
Qed.

Lemma agree_bind {A B} (m1 m2 : M A) (k1 k2 : A -> M B) :
  agree m1 m2 -> (forall a, agree (k1 a) (k2 a)) -> agree (bind m1 k1) (bind m2 k2).
Proof.
  intros Hm Hk s1 s2 Hs. unfold bind. destruct (Hm s1 s2 Hs) as [Hs' Hc].
  destruct (m1 s1) as [s1' c1], (m2 s2) as [s2' c2]. simpl in *. subst c2.
  destruct c1 as [a|v|e]; [apply Hk; exact Hs' | auto | auto].
Qed.

Lemma agree_try_except {A} (b1 b2 : M A) (k1 k2 : Exception -> M A) :
  agree b1 b2 -> (forall e, agree (k1 e) (k2 e)) ->
  agree (try_except b1 k1) (try_except b2 k2).
Proof.
  intros Hm Hk s1 s2 Hs. unfold try_except. destruct (Hm s1 s2 Hs) as [Hs' Hc].
  destruct (b1 s1) as [s1' c1], (b2 s2) as [s2' c2]. simpl in *. subst c2.
  destruct c1 as [a|v|e]; [auto | auto | apply Hk; exact Hs'].
Qed.

Lemma agree_try_finally {A} (b1 b2 : M A) (f1 f2 : M unit) :
  agree b1 b2 -> agree f1 f2 -> agree (try_finally b1 f1) (try_finally b2 f2).
Proof.
  intros Hm Hf s1 s2 Hs. unfold try_finally. destruct (Hm s1 s2 Hs) as [Hs' Hc].
  destruct (b1 s1) as [s1' c1], (b2 s2) as [s2' c2]. simpl in *. subst c2.
  destruct (Hf s1' s2' Hs') as [Hs'' Hc'].
  destruct (f1 s1') as [s1'' c1'], (f2 s2') as [s2'' c2']. simpl in *. subst c2'.
  destruct c1' as [a|v|e]; auto.
Qed.

Lemma agree_for_in {A} (l : list A) (b1 b2 : A -> M unit) :
  (forall x, agree (b1 x) (b2 x)) -> agree (for_in l b1) (for_in l b2).
Proof.
  intros Hb. induction l as [|x l IH]; simpl.
  - apply agree_ret.
  - apply agree_bind; auto.
Qed.

Lemma agree_ext {A} (m1 m2 m2' : M A) :
  agree m1 m2 -> (forall s, m2 s = m2' s) -> agree m1 m2'.
Proof. intros Hm Hext s1 s2 Hs. rewrite <- Hext. apply Hm. exact Hs. Qed.

Lemma notifications_blank (t : list event) :
  notifications (List.map blank t) = notifications t.
Proof.
  assert (Hcons : forall ev l,
            notifications (ev :: l)
            = match ev with
              | SendTg text => text :: notifications l
              | _ => notifications l
              end) by (intros [c| | |] ?; reflexivity).
  induction t as [|ev t IH]; [reflexivity|].
  change (notifications (blank ev :: List.map blank t) = notifications (ev :: t)).
  rewrite !Hcons, IH. destruct ev as [[]| | |]; reflexivity.
Qed.
End Agreement.

Ltac agree_step Hobl :=
  lazymatch goal with
  | |- agree (bind ?m1 ?k1) (bind ?m2 ?k2) =>
    apply (agree_bind m1 m2 k1 k2); [|intros]
  | |- agree (try_except ?b1 ?k1) (try_except ?b2 ?k2) =>
    apply (agree_try_except b1 b2 k1 k2); [|intros]
  | |- agree (try_finally ?b1 ?f1) (try_finally ?b2 ?f2) =>
    apply (agree_try_finally b1 b2 f1 f2)
  | |- agree (for_in ?l ?b1) (for_in ?l ?b2) =>
    apply (agree_for_in l b1 b2); intros
  | |- agree (ret ?a) (ret ?a) => apply (agree_ret a)
  | |- agree (return_ ?v) (return_ ?v) => apply (agree_return v)
  | |- agree (raise ?e) (raise ?e) => apply (agree_raise e)
  | |- agree (lift ?r) (lift ?r) => apply (agree_lift r)
  | |- agree get_driver get_driver => apply agree_get_driver
  | |- agree (set_driver ?d) (set_driver ?d) => apply (agree_set_driver d)
  | |- agree (emit ?ev) (emit ?ev) => apply (agree_emit ev)
  | |- agree (do (send_keys ?e ?k1)) (do (send_keys ?e ?k2)) =>
    apply (agree_send_keys Hobl e k1 k2)
  | |- agree (do ?c) (do ?c) => apply (agree_do c)
  | |- agree (if ?b then _ else _) (if ?b then _ else _) => destruct b
  | |- agree (match ?x with _ => _ end) (match ?x with _ => _ end) => destruct x
  end.

Ltac agree_walk Hobl := repeat (autounfold with script; agree_step Hobl).

Lemma key_is_not_password (key : str) :
  bool_decide (key = py "GH_PASSWORD") = false -> key <> py "GH_PASSWORD".
Proof. intros Hk ->. rewrite bool_decide_eq_true_2 in Hk; [discriminate | reflexivity]. Qed.

Lemma environ_get_same (h1 h2 : Host) (key : str) :
  same_but_password h1 h2 -> bool_decide (key = py "GH_PASSWORD") = false ->
  environ_get h1 key = environ_get h2 key.
Proof.
  intros [He _] Hk. unfold environ_get. rewrite (He key); [reflexivity|].
  apply key_is_not_password. exact Hk.
Qed.

Lemma first_existing_same (h1 h2 : Host) (l : list str) :
  same_but_password h1 h2 -> first_existing h1 l = first_existing h2 l.
Proof.
  intros [_ [Hp _]]. induction l as [|p l IH]; simpl; [reflexivity|].
  rewrite (Hp p), IH. reflexivity.
Qed.

Section TwoRuns.
Context `{Platform}.
Hypothesis Hobl : oblivious.
Variables h1 h2 : Host.
Hypothesis Hsame : same_but_password h1 h2.

Lemma agree_send_tg_message text :
  agree (send_tg_message h1 text) (send_tg_message h2 text).
Proof.
  unfold send_tg_message.
  rewrite (environ_get_same h1 h2 (py "TG_BOT_TOKEN") Hsame eq_refl).
  rewrite (environ_get_same h1 h2 (py "TG_CHAT_ID") Hsame eq_refl).
  agree_walk Hobl.
Qed.

Lemma agree_click_submit d selectors :
  agree (click_submit d selectors) (click_submit d selectors).
Proof.
  induction selectors as [|sel rest IH]; simpl; agree_walk Hobl; assumption.
Qed.

Lemma agree_start_browser o : agree (start_browser h1 o) (start_browser h2 o).
Proof.
  unfold start_browser, find_chromedriver.
  rewrite (first_existing_same h1 h2 _ Hsame). agree_walk Hobl.
Qed.

Lemma agree_fill_login u p1 p2 d : agree (fill_login u p1 d) (fill_login u p2 d).
Proof. agree_walk Hobl. Qed.

Lemma agree_enter_totp secret d : agree (enter_totp secret d) (enter_totp secret d).
Proof. agree_walk Hobl. apply agree_click_submit. Qed.

Lemma agree_check_2fa secret now masked d :
  agree (check_2fa h1 secret now masked d) (check_2fa h2 secret now masked d).
Proof.
  unfold check_2fa.
  repeat first [apply agree_send_tg_message | apply agree_enter_totp
               | agree_step Hobl | unfold log, sleep, on_2fa_page].
Qed.

Lemma agree_report_result now masked u p :
  agree (report_result h1 now masked u p) (report_result h2 now masked u p).
Proof.
  unfold report_result.
  repeat first [apply agree_send_tg_message | agree_step Hobl | unfold log].
Qed.

Lemma agree_on_exception now masked e :
  agree (on_exception h1 now masked e) (on_exception h2 now masked e).
Proof.
  unfold on_exception.
  repeat first [apply agree_send_tg_message | agree_step Hobl
               | unfold log, log_exception].
Qed.

Lemma agree_browser_session u p1 p2 secret now masked o :
  agree (browser_session h1 u p1 secret now masked o)
        (browser_session h2 u p2 secret now masked o).
Proof.
  unfold browser_session, login_flow, flow_to_result, flow_to_2fa.
  repeat lazymatch goal with
         | |- agree (start_browser _ _) _ => apply agree_start_browser
         | |- agree (fill_login _ _ _) _ => apply agree_fill_login
         | |- agree (check_2fa _ _ _ _ _) _ => apply agree_check_2fa
         | |- agree (report_result _ _ _ _ _) _ => apply agree_report_result
         | |- agree (on_exception _ _ _ _) _ => apply agree_on_exception
         | |- agree (visit _) _ => unfold visit, log, sleep
         | |- agree (click_github _) _ => unfold click_github, log, sleep
         | |- agree (check_authorize _) _ => unfold check_authorize, log, sleep
         | |- agree (read_result _) _ => unfold read_result, log, sleep
         | |- agree close_browser _ => unfold close_browser, log
         | |- agree (let '(a, b) := ?x in _) _ => destruct x
         | |- _ => agree_step Hobl
         end.
Qed.

Lemma agree_run_login_body :
  password_of h1 <> [] -> password_of h2 <> [] ->
  agree (run_login_body h1) (run_login_body h2).
Proof.
  intros Hp1 Hp2. unfold run_login_body, preamble, find_chrome.
  fold (password_of h1) (password_of h2).
  rewrite (environ_get_same h1 h2 (py "GH_USERNAME") Hsame eq_refl).
  rewrite (environ_get_same h1 h2 (py "GH_2FA_SECRET") Hsame eq_refl).
  rewrite (first_existing_same h1 h2 _ Hsame).
  destruct Hsame as [_ [_ Hnow]]. rewrite Hnow.
  destruct (password_of h1) as [|c1 p1] eqn:E1; [congruence|].
  destruct (password_of h2) as [|c2 p2] eqn:E2; [congruence|].
  cbn [truthy negb]. rewrite !orb_false_r.
  repeat lazymatch goal with
         | |- agree (send_tg_message _ _) _ => apply agree_send_tg_message
         | |- agree (browser_session _ _ _ _ _ _ _) _ => apply agree_browser_session
         | |- agree (log _ _) _ => unfold log
         | |- agree (let '(a, b) := ?x in _) _ => destruct x
         | |- _ => agree_step Hobl
         end.
Qed.
End TwoRuns.

(** Picks the return path a message belongs to by the builder at its
    head. *)
Ltac describe :=
  lazymatch goal with
  | |- describes _ _ (msg_missing_credentials _ _) _ => apply missing_credentials
  | |- describes _ _ (msg_no_chromium _ _) _ => apply missing_browser
  | |- describes _ _ (msg_2fa_no_secret _ _) _ => apply two_factor_without_secret
  | |- describes _ _ (msg_2fa_failed _ _ _) _ => apply two_factor_fill_failure
  | |- describes _ _ (msg_success _ _ _) _ => apply classified_success
  | |- describes _ _ (msg_failure _ _) _ => apply classified_failure
  | |- describes _ _ (msg_exception _ _ _) _ => apply caught_exception
  end.

Section BuiltFromMask.
Context `{Platform}.
Variable h : Host.
Variables masked now : str.

Local Abbreviation P := (built_from_mask masked now).

Lemma messages_of_send_tg text b :
  describes masked now text b -> emits P (send_tg_message h text).
Proof.
  intros Hd. unfold send_tg_message. emits_walk. exists b. exact Hd.
Qed.

Lemma messages_of_check_2fa secret d : emits P (check_2fa h secret now masked d).
Proof.
  unfold check_2fa.
  repeat first [ eapply messages_of_send_tg; describe
               | apply emits_enter_totp; simpl; auto
               | emits_step | unfold log, sleep, on_2fa_page ].
Qed.

Lemma messages_of_report_result u p : emits P (report_result h now masked u p).
Proof.
  unfold report_result.
  repeat first [eapply messages_of_send_tg; describe | emits_step | unfold log].
Qed.

Lemma messages_of_on_exception e : emits P (on_exception h now masked e).
Proof.
  unfold on_exception.
  repeat first [ eapply messages_of_send_tg; describe | emits_step
               | unfold log, log_exception ].
Qed.

Lemma messages_of_session u p secret o :
  emits P (browser_session h u p secret now masked o).
Proof.
  unfold browser_session, login_flow, flow_to_result.
  repeat first [ apply messages_of_check_2fa | apply messages_of_report_result
               | apply messages_of_on_exception
               | apply emits_flow_to_2fa; simpl; auto
               | apply emits_check_authorize; simpl; auto
               | apply emits_read_result; simpl; auto
               | apply emits_close_browser; simpl; auto
               | emits_step ].
Qed.

Lemma messages_described (t : list event) :
  Forall P t ->
  Forall (fun text => exists b, describes masked now text b) (notifications t).
Proof.
  intros Ht. induction Ht as [|ev t Hev _ IH]; [constructor|].
  destruct ev; simpl in *; try exact IH. constructor; assumption.
Qed.
End BuiltFromMask.

Lemma messages_of_preamble `{Platform} (h : Host) (masked : str) :
  mask_account (username_of h) = inr masked ->
  emits (built_from_mask masked (strftime_now h)) (preamble h).
Proof.
  intros Hm. unfold preamble. fold (username_of h). rewrite Hm.
  match goal with
  | |- emits _ (bind (lift (inr masked)) ?k) => change (emits (built_from_mask masked (strftime_now h)) (k masked))
  end.
  cbn beta.
  repeat first [ eapply messages_of_send_tg; describe | emits_step | unfold log ].
Qed.



(** * Further properties of the script *)

(** ** [mask_account] *)

(** X1: for an account with a non-empty local part, [mask_account]
    keeps the whole text after the first "@" and, of the local part, its
    first three characters when it has more than three and only its first
    character otherwise, followed by "***@". *)
Theorem mask_account_shows_at_most_three (name domain : str) :
  name <> [] -> ~ In 64 name ->
  mask_account (name ++ py "@" ++ domain) =
    inr (take (if (3 <? N.of_nat (length name)) then 3%nat else 1%nat) name
         ++ py "***@" ++ domain).
Proof.
  intros Hne Hnot. change (py "@" ++ domain) with (64 :: domain).
  rewrite (mask_account_masks name domain Hne Hnot).
  rewrite N.ltb_antisym. destruct (N.of_nat (length name) <=? 3); reflexivity.
Qed.

Lemma mask_account_shows_at_most_three_witness :
  mask_account (py "ab@mail@example.com") = inr (py "a***@mail@example.com").
Proof.
  apply (mask_account_shows_at_most_three (py "ab") (py "mail@example.com")).
  - vm_compute. discriminate.
  - vm_compute. intros [Hf | [Hf | []]]; discriminate.
Defined.

(** X2: [mask_account] raises exactly on the accounts that begin with
    "@", and what it raises is IndexError; on every other string it returns
    a string. *)
Theorem mask_account_raises_iff (account : str) (e : Exception) :
  mask_account account = inl e <->
  e = IndexError /\ exists domain, account = py "@" ++ domain.
Proof.
  split.
  - apply mask_account_inl.
  - intros [-> [domain ->]]. apply mask_account_at.
Qed.

(** ** [send_tg_message] *)

Section Telegram.
Context `{Platform}.
Variable h : Host.


(** X4: with a bot token and a chat id, [send_tg_message] posts exactly
    one request, to the sendMessage method of that bot, carrying the chat
    id, the text as it was given and [disable_web_page_preview], with a
    timeout of 10 seconds; it then logs one line for the outcome. *)
Theorem send_tg_message_posts_once (text : str) (s : State) :
  let bot_token := strip (environ_get h (py "TG_BOT_TOKEN")) in
  let chat_id := strip (environ_get h (py "TG_CHAT_ID")) in
  let request := requests_post (sendMessage_url bot_token)
                               (sendMessage_json chat_id text) 10 in
  bot_token <> [] -> chat_id <> [] ->
  send_tg_message h text s =
    (mkState (respond request (world s)).1
       (trace s ++ [SendTg text; Called request;
                    tg_outcome (respond request (world s)).2])
       (driver s), Normal tt).
Proof.
  intros bot_token chat_id request. subst request.
  unfold send_tg_message. fold bot_token chat_id. clearbody bot_token chat_id.
  intros Ht Hc.
  destruct bot_token as [|b bot_token]; [congruence|].
  destruct chat_id as [|c chat_id]; [congruence|].
  cbn [truthy negb orb].
  unfold log, bind, emit, try_except, do. cbn [world trace driver].
  unfold sendMessage_url, sendMessage_json.
  destruct (respond _ (world s)) as [w [e|r]]; cbn [fst snd tg_outcome].
  - cbn [world trace driver]. rewrite <- !app_assoc. reflexivity.
  - destruct (r =? 200); cbn [world trace driver]; rewrite <- !app_assoc; reflexivity.
Qed.

(** X5: when TG_BOT_TOKEN or TG_CHAT_ID is unset, empty or made of white
    space only, [send_tg_message] posts nothing: it logs one line and
    returns, and the world is as it was. *)
Theorem send_tg_message_skips_without_target (text : str) (s : State) :
  absent_or_blank h (py "TG_BOT_TOKEN") \/ absent_or_blank h (py "TG_CHAT_ID") ->
  send_tg_message h text s =
    (mkState (world s)
       (trace s ++ [SendTg text;
                    Logged INFO (py "未配置 TG_BOT_TOKEN / TG_CHAT_ID，跳过 TG 通知")])
       (driver s), Normal tt).
Proof.
  intros Hc. apply send_tg_message_unconfigured.
  destruct Hc as [Hc | Hc]; [left | right]; apply absent_or_blank_strip; exact Hc.
Qed.
End Telegram.

Lemma send_tg_message_posts_once_witness :
  posts (trace (send_tg_message (H := site usual) typical_host (py "hello")
                  (fresh (H := site usual) Blank)).1) =
  [(py "https://api.telegram.org/bot123:abc/sendMessage",
    [(py "chat_id", VStr (py "42")); (py "text", VStr (py "hello"));
     (py "disable_web_page_preview", VBool true)], 10)].
Proof.
  rewrite (send_tg_message_posts_once (H := site usual) typical_host (py "hello")
             (fresh (H := site usual) Blank)).
  - vm_compute. reflexivity.
  - vm_compute. discriminate.
  - vm_compute. discriminate.
Defined.

Lemma send_tg_message_skips_without_target_witness :
  posts (trace (send_tg_message (H := site usual) host_without_secret (py "hello")
                  (fresh (H := site usual) Blank)).1) = [].
Proof.
  rewrite (send_tg_message_skips_without_target (H := site usual)
             host_without_secret (py "hello") (fresh (H := site usual) Blank)).
  - vm_compute. reflexivity.
  - right. vm_compute. exact I.
Defined.

(** ** [run_login]: what it returns *)

Section Returns.
Context `{Platform}.
Variable h : Host.

Lemma run_login_preamble_return (w : World) (s0 : State) (v : bool) :
  preamble h (fresh w) = (s0, Return v) -> run_login h w = (s0, inr (Some v)).
Proof.
  intros Hp. rewrite run_login_finish. unfold run_login_body, bind.
  rewrite Hp. reflexivity.
Qed.

(** A call that returns True went through the classification. *)
Lemma returns_true_inv (w : World) (s' : State) :
  run_login h w = (s', inr (Some true)) ->
  exists s0 s1 masked options final_url page_text,
    preamble h (fresh w) = (s0, Normal (masked, options)) /\
    flow_to_result h (username_of h) (password_of h) (totp_secret_of h)
      (strftime_now h) masked options s0 = (s1, Normal (final_url, page_text)) /\
    classify final_url page_text = true.
Proof.
  intros Hrun.
  destruct (mask_account (username_of h)) as [e|masked] eqn:Hm.
  { rewrite run_login_finish in Hrun. unfold run_login_body, bind in Hrun.
    rewrite (preamble_raises h e (fresh w) Hm) in Hrun. discriminate. }
  destruct (decide (username_of h = [] \/ password_of h = [])) as [Hc|Hc].
  { destruct (preamble_missing_credentials h masked (fresh w) Hm Hc) as [w1 [t [Hp _]]].
    rewrite (run_login_preamble_return w _ _ Hp) in Hrun. discriminate. }
  assert (Hu : username_of h <> []) by tauto.
  assert (Hpw : password_of h <> []) by tauto.
  destruct (find_chrome h) as [path|] eqn:Hchrome.
  2:{ destruct (preamble_no_chromium h masked (fresh w) Hm Hu Hpw Hchrome)
        as [w1 [t [Hp _]]].
      rewrite (run_login_preamble_return w _ _ Hp) in Hrun. discriminate. }
  pose proof (preamble_ready h masked path (fresh w) Hm Hu Hpw Hchrome) as Hp.
  rewrite (run_login_session h w _ masked _ Hp) in Hrun.
  match type of Hrun with
  | finish (browser_session ?a ?b ?c ?d ?e ?f ?g ?s0) = _ =>
    destruct (login_flow a b c d e f g (mkState (world s0) (trace s0) None))
      as [s1 [x|v|e0]] eqn:Hflow
  end.
  - exfalso. exact (flow_never_normal _ _ _ _ _ _ _ _ _ _ Hflow).
  - destruct (session_after_return _ _ _ _ _ _ _ _ _ _ Hflow) as [s2 [t [Hs _]]].
    rewrite Hs in Hrun. injection Hrun as <- ->.
    cbn [world trace fresh] in Hflow.
    unfold login_flow in Hflow. unfold bind at 1 in Hflow.
    match type of Hflow with
    | context [flow_to_result ?a ?b ?c ?d ?e ?f ?g ?s0] =>
      destruct (flow_to_result a b c d e f g s0) as [s3 [[u p]|v3|e3]] eqn:Hres
    end.
    + destruct (report_result_run h masked (strftime_now h) u p s3) as [w3 [t3 [Hr _]]].
      rewrite Hr in Hflow. injection Hflow as _ Hb.
      eexists _, s3, masked, _, u, p. split; [exact Hp|]. split; [exact Hres|].
      exact Hb.
    + injection Hflow as _ ->.
      destruct (flow_to_result_returns _ _ _ _ _ _ _ _ _ _ Hres) as [Hv _].
      discriminate.
    + discriminate.
  - destruct (session_after_raise _ _ _ _ _ _ _ _ _ _ Hflow)
      as [s2 [t1 [t2 [Hs _]]]].
    rewrite Hs in Hrun. discriminate.
Qed.


(** X7: when GH_USERNAME or GH_PASSWORD is unset, empty or made of white
    space only, and [mask_account] returns, [run_login] logs the
    missing-credentials message, passes it to [send_tg_message] and returns
    False; it does nothing else: no browser is started and no path is
    looked up. *)
Theorem missing_credentials_are_reported (w : World) (masked : str) :
  mask_account (username_of h) = inr masked ->
  absent_or_blank h (py "GH_USERNAME") \/ absent_or_blank h (py "GH_PASSWORD") ->
  exists s' t,
    run_login h w = (s', inr (Some false)) /\
    trace s' = Logged ERROR (msg_missing_credentials masked (strftime_now h))
               :: SendTg (msg_missing_credentials masked (strftime_now h)) :: t /\
    Forall tg_effect t.
Proof.
  intros Hm Hc.
  assert (Hc' : username_of h = [] \/ password_of h = []).
  { destruct Hc as [Hc | Hc]; [left | right]; apply absent_or_blank_strip; exact Hc. }
  destruct (preamble_missing_credentials h masked (fresh w) Hm Hc') as [w1 [t [Hp Hq]]].
  rewrite (run_login_preamble_return w _ _ Hp). eexists _, t.
  split; [reflexivity|]. split; [reflexivity | exact Hq].
Qed.

(** X8: [run_login] returns True only through the classification of
    lines 336-345: a call that returns True has passed the credential and
    browser checks, has read the final URL and the page source, and has
    classified them as a success.  Every other return is False. *)
Theorem true_only_by_classification (w : World) (s' : State) :
  run_login h w = (s', inr (Some true)) ->
  exists s0 s1 masked options final_url page_text,
    preamble h (fresh w) = (s0, Normal (masked, options)) /\
    flow_to_result h (username_of h) (password_of h) (totp_secret_of h)
      (strftime_now h) masked options s0 = (s1, Normal (final_url, page_text)) /\
    classify final_url page_text = true.
Proof. apply returns_true_inv. Qed.
End Returns.


Lemma missing_credentials_are_reported_witness :
  exists s' t,
    run_login (H := site usual) host_without_password Blank = (s', inr (Some false)) /\
    trace s' =
      Logged ERROR (msg_missing_credentials (py "oct***@example.com")
                      (py "2026-01-01 08:00:00"))
      :: SendTg (msg_missing_credentials (py "oct***@example.com")
                   (py "2026-01-01 08:00:00")) :: t /\
    Forall tg_effect t.
Proof.
  apply (@missing_credentials_are_reported (site usual) host_without_password Blank
           (py "oct***@example.com")).
  - vm_compute. reflexivity.
  - right. vm_compute. exact I.
Defined.

Lemma true_only_by_classification_witness :
  exists final_url page_text,
    (flow_to_result (H := site usual) typical_host (username_of typical_host)
       (password_of typical_host) (totp_secret_of typical_host)
       (strftime_now typical_host) (py "oct***@example.com")
       (chrome_options (py "/usr/bin/chromium"))
       (preamble (H := site usual) typical_host (fresh (H := site usual) Blank)).1).2
      = Normal (final_url, page_text) /\
    classify final_url page_text = true.
Proof.
  destruct (@true_only_by_classification (site usual) typical_host Blank
              (run_login (H := site usual) typical_host Blank).1)
    as [s0 [s1 [masked [options [u [p [Hp [Hf Hc]]]]]]]].
  - vm_compute. reflexivity.
  - exists u, p. split; [|exact Hc].
    assert (Hpre : preamble (H := site usual) typical_host (fresh (H := site usual) Blank)
                   = ((preamble (H := site usual) typical_host
                         (fresh (H := site usual) Blank)).1,
                      Normal (py "oct***@example.com",
                              chrome_options (py "/usr/bin/chromium")))).
    { vm_compute. reflexivity. }
    rewrite Hpre in Hp. injection Hp as <- <- <-. rewrite Hf. reflexivity.
Defined.

(** ** The [driver] variable and the [finally] block *)

Section Driver.
Context `{Platform}.

Lemma keeps_ret {A} (a : A) : keeps_driver (ret a).
Proof. intros s. reflexivity. Qed.

Lemma keeps_return {A} v : keeps_driver (return_ (A := A) v).
Proof. intros s. reflexivity. Qed.

Lemma keeps_raise {A} e : keeps_driver (raise (A := A) e).
Proof. intros s. reflexivity. Qed.

Lemma keeps_emit ev : keeps_driver (emit ev).
Proof. intros s. reflexivity. Qed.

Lemma keeps_do c : keeps_driver (do c).
Proof. intros s. unfold do. destruct (respond c (world s)). reflexivity. Qed.

Lemma keeps_get_driver : keeps_driver get_driver.
Proof. intros s. reflexivity. Qed.

Lemma driver_bind {A B} (m : M A) (k : A -> M B) (s : State) :
  (forall a, keeps_driver (k a)) -> driver (bind m k s).1 = driver (m s).1.
Proof.
  intros Hk. unfold bind. destruct (m s) as [s1 [a|v|e]]; simpl; auto. apply Hk.
Qed.

Lemma driver_try_except {A} (body : M A) handler (s : State) :
  (forall e, keeps_driver (handler e)) ->
  driver (try_except body handler s).1 = driver (body s).1.
Proof.
  intros Hk. unfold try_except. destruct (body s) as [s1 [a|v|e]]; simpl; auto. apply Hk.
Qed.

Lemma keeps_bind {A B} (m : M A) (k : A -> M B) :
  keeps_driver m -> (forall a, keeps_driver (k a)) -> keeps_driver (bind m k).
Proof. intros Hm Hk s. rewrite driver_bind; [apply Hm | exact Hk]. Qed.

Lemma keeps_try_except {A} (body : M A) handler :
  keeps_driver body -> (forall e, keeps_driver (handler e)) ->
  keeps_driver (try_except body handler).
Proof. intros Hm Hk s. rewrite driver_try_except; [apply Hm | exact Hk]. Qed.

Lemma keeps_for_in {A} (l : list A) body :
  (forall x, keeps_driver (body x)) -> keeps_driver (for_in l body).
Proof.
  intros Hb. induction l as [|x l IH]; simpl.
  - apply keeps_ret.
  - apply keeps_bind; auto.
Qed.
End Driver.

Ltac keeps_step :=
  lazymatch goal with
  | |- keeps_driver (bind ?m ?k) => apply (keeps_bind m k); [|intros]
  | |- keeps_driver (try_except ?b ?k) => apply (keeps_try_except b k); [|intros]
  | |- keeps_driver (for_in ?l ?b) => apply (keeps_for_in l b); intros
  | |- keeps_driver (ret ?a) => apply (keeps_ret a)
  | |- keeps_driver (return_ ?v) => apply (keeps_return v)
  | |- keeps_driver (raise ?e) => apply (keeps_raise e)
  | |- keeps_driver get_driver => apply keeps_get_driver
  | |- keeps_driver (emit ?ev) => apply (keeps_emit ev)
  | |- keeps_driver (do ?c) => apply (keeps_do c)
  | |- keeps_driver (if ?b then _ else _) => destruct b
  | |- keeps_driver (match ?x with _ => _ end) => destruct x
  end.

Ltac keeps_walk := repeat (autounfold with script; keeps_step).

Section Quit.
Context `{Platform}.
Variable h : Host.
Variables username password totp_secret now masked : str.
Variable options : Options.

Lemma keeps_click_submit d selectors : keeps_driver (click_submit d selectors).
Proof. induction selectors as [|sel rest IH]; simpl; keeps_walk; assumption. Qed.

Lemma keeps_send_tg_message text : keeps_driver (send_tg_message h text).
Proof. unfold send_tg_message. keeps_walk. Qed.

Lemma keeps_after_start d :
  keeps_driver (visit d ;; click_github d ;; fill_login username password d ;; ret d).
Proof. keeps_walk. Qed.

Lemma keeps_enter_totp d : keeps_driver (enter_totp totp_secret d).
Proof. keeps_walk. apply keeps_click_submit. Qed.

Lemma keeps_check_2fa d : keeps_driver (check_2fa h totp_secret now masked d).
Proof.
  unfold check_2fa.
  repeat first [apply keeps_send_tg_message | apply keeps_enter_totp | keeps_step
               | unfold log, sleep, on_2fa_page].
Qed.

Lemma keeps_to_result d :
  keeps_driver (check_2fa h totp_secret now masked d ;; check_authorize d ;;
                read_result d).
Proof.
  keeps_step; [apply keeps_check_2fa|]. keeps_walk.
Qed.

Lemma keeps_report_result u p : keeps_driver (report_result h now masked u p).
Proof.
  unfold report_result.
  repeat first [apply keeps_send_tg_message | keeps_step | unfold log].
Qed.

Lemma keeps_on_exception e : keeps_driver (on_exception h now masked e).
Proof.
  unfold on_exception.
  repeat first [apply keeps_send_tg_message | keeps_step | unfold log, log_exception].
Qed.

(** After the [try] body and the handler, [driver] holds what
    [webdriver.Chrome] returned, or None when it raised. *)
Lemma driver_after_flow (s : State) :
  driver s = None ->
  driver (try_except (login_flow h username password totp_secret now masked options)
            (on_exception h now masked) s).1 =
  match (respond (chrome_call h options) (world s)).2 with
  | inr d => Some d
  | inl _ => None
  end.
Proof.
  intros Hs. rewrite driver_try_except by apply keeps_on_exception.
  unfold login_flow. rewrite driver_bind by (intros [u p]; apply keeps_report_result).
  unfold flow_to_result. rewrite driver_bind by apply keeps_to_result.
  unfold flow_to_2fa. rewrite driver_bind by apply keeps_after_start.
  unfold start_browser. rewrite driver_bind by (intros; keeps_walk).
  unfold chrome_call.
  destruct (find_chromedriver h) as [path|];
    unfold bind, log, emit, do, set_driver, ret; cbn [world trace driver];
    destruct (respond _ (world s)) as [w [e|d]]; cbn [fst snd driver]; auto.
Qed.

Lemma not_quit_click_submit d selectors : emits not_quit (click_submit d selectors).
Proof. induction selectors as [|sel rest IH]; simpl; emits_walk; assumption. Qed.

Lemma not_quit_send_tg_message text : emits not_quit (send_tg_message h text).
Proof. unfold send_tg_message. emits_walk. Qed.

Lemma not_quit_check_2fa d : emits not_quit (check_2fa h totp_secret now masked d).
Proof.
  unfold check_2fa.
  repeat first [apply not_quit_send_tg_message | apply not_quit_click_submit
               | emits_step | progress autounfold with script].
Qed.

(** Nothing in the [try] body or in the handler quits the browser. *)
Lemma not_quit_flow :
  emits not_quit
    (try_except (login_flow h username password totp_secret now masked options)
       (on_exception h now masked)).
Proof.
  emits_step.
  - unfold login_flow. emits_step.
    + unfold flow_to_result. emits_step.
      * unfold flow_to_2fa. emits_walk.
      * emits_step; [apply not_quit_check_2fa|]. emits_walk.
    + emits_step. unfold report_result.
      repeat first [apply not_quit_send_tg_message | emits_step | unfold log].
  - unfold on_exception.
    repeat first [apply not_quit_send_tg_message | emits_step
                 | unfold log, log_exception].
Qed.

(** The [finally] block, by the value of [driver]. *)
Lemma close_browser_cases (s : State) :
  driver (close_browser s).1 = driver s /\
  (close_browser s).2 = Normal tt /\
  match driver s with
  | Some d =>
      trace (close_browser s).1 = trace s ++ [Called (quit d)] \/
      trace (close_browser s).1 =
        trace s ++ [Called (quit d); Logged INFO (py "浏览器已关闭")]
  | None => trace (close_browser s).1 = trace s
  end.
Proof.
  unfold close_browser. unfold_monad. cbn beta.
  destruct (driver s) as [d|] eqn:Hd.
  - unfold do. destruct (respond (quit d) (world s)) as [w [e|r]]; cbn.
    + auto.
    + rewrite <- app_assoc. auto.
  - cbn. auto.
Qed.

(** The whole [try] statement: one [quit], at the end, on what
    [webdriver.Chrome] returned. *)
Lemma session_quits (s : State) :
  let s' := (browser_session h username password totp_secret now masked options s).1 in
  exists t,
    Forall not_quit t /\
    match (respond (chrome_call h options) (world s)).2 with
    | inr d =>
        trace s' = trace s ++ t ++ [Called (quit d)] \/
        trace s' = trace s ++ t ++ [Called (quit d); Logged INFO (py "浏览器已关闭")]
    | inl _ => trace s' = trace s ++ t
    end.
Proof.
  intros s'. subst s'.
  set (s0 := mkState (world s) (trace s) None).
  set (body := try_except (login_flow h username password totp_secret now masked options)
                 (on_exception h now masked)).
  assert (Hs : (browser_session h username password totp_secret now masked options s).1
               = (close_browser (body s0).1).1).
  { unfold browser_session, bind, set_driver, try_finally. fold s0 body.
    destruct (body s0) as [s1 c1]. cbn [fst].
    destruct (close_browser s1) as [s2 [a|v|e]]; reflexivity. }
  rewrite Hs.
  pose proof (driver_after_flow s0 eq_refl) as Hd. fold body in Hd.
  destruct (not_quit_flow s0) as [t [Ht Hq]]. fold body in Ht.
  destruct (close_browser_cases (body s0).1) as [_ [_ Hc]].
  exists t. split; [exact Hq|].
  change (world s0) with (world s) in Hd. change (trace s0) with (trace s) in Ht.
  rewrite Hd, Ht in Hc.
  destruct (respond (chrome_call h options) (world s)) as [w [e|d]]; cbn [snd] in *.
  - exact Hc.
  - rewrite <- !app_assoc in Hc. exact Hc.
Qed.
End Quit.

(** X9: the browser is quit on every path.  Once the preamble has handed
    on, if [webdriver.Chrome] returns a driver the run calls [quit] on it
    exactly once, as its last call, followed at most by the log line of
    line 393, whether the [try] body returned or raised; if
    [webdriver.Chrome] raises, [quit] is never called. *)
Theorem browser_is_quit_once `{Platform} (h : Host) (w : World) (s0 : State)
    (masked : str) (options : Options) :
  preamble h (fresh w) = (s0, Normal (masked, options)) ->
  exists t,
    Forall not_quit t /\
    match (respond (chrome_call h options) w).2 with
    | inr d =>
        trace (run_login h w).1 = t ++ [Called (quit d)] \/
        trace (run_login h w).1 =
          t ++ [Called (quit d); Logged INFO (py "浏览器已关闭")]
    | inl _ => trace (run_login h w).1 = t
    end.
Proof.
  intros Hp. rewrite (run_login_session h w s0 masked options Hp).
  apply preamble_normal in Hp as [path [_ [_ [_ [_ [_ ->]]]]]].
  match goal with
  | |- context [browser_session ?a ?b ?c ?d ?e ?f ?g ?s] =>
    destruct (session_quits a b c d e f g s) as [t [Hq Ht]];
    set (r := browser_session a b c d e f g s) in *
  end.
  assert (Hfin : trace (finish r).1 = trace r.1).
  { destruct r as [s1 [a|v|e]]; reflexivity. }
  rewrite Hfin. cbn [world trace fresh] in Ht.
  assert (Hpre : Forall not_quit (banner masked (strftime_now h) path)).
  { repeat constructor. }
  set (pre := banner _ _ _) in *. clearbody pre.
  exists (pre ++ t). split.
  - apply Forall_app. split; [exact Hpre | exact Hq].
  - destruct (respond (chrome_call h options) w) as [w1 [e|d]]; cbn [snd] in *;
      rewrite <- ?app_assoc; cbn [app] in Ht; exact Ht.
Qed.

Lemma browser_is_quit_once_witness :
  exists t,
    Forall not_quit t /\
    (trace (run_login (H := site usual) typical_host Blank).1 = t ++ [Called (quit 100)] \/
     trace (run_login (H := site usual) typical_host Blank).1 =
       t ++ [Called (quit 100); Logged INFO (py "浏览器已关闭")]).
Proof.
  destruct (@browser_is_quit_once (site usual) typical_host Blank
              (preamble (H := site usual) typical_host (fresh (H := site usual) Blank)).1
              (py "oct***@example.com") (chrome_options (py "/usr/bin/chromium")))
    as [t [Hq Ht]].
  - vm_compute. reflexivity.
  - exists t. split; [exact Hq|]. exact Ht.
Defined.

(** ** The exit status (lines 398-414) *)

Section Main.
Context `{Platform}.
Variable h : Host.

Lemma classified_run (w : World) (s0 s1 : State) (masked : str) (options : Options)
    (final_url page_text : str) :
  preamble h (fresh w) = (s0, Normal (masked, options)) ->
  flow_to_result h (username_of h) (password_of h) (totp_secret_of h)
    (strftime_now h) masked options s0 = (s1, Normal (final_url, page_text)) ->
  exists s', run_login h w = (s', inr (Some (classify final_url page_text))).
Proof.
  intros Hp Hf.
  rewrite (run_login_session h w s0 masked options Hp).
  pose proof (preamble_fresh h w s0 masked options Hp) as Hs0.
  destruct (report_result_run h masked (strftime_now h) final_url page_text s1)
    as [w1 [t [Hr _]]].
  rewrite <- (flow_after_result _ _ _ _ _ _ _ _ _ _ _ Hf), <- Hs0 in Hr.
  destruct (session_after_return _ _ _ _ _ _ _ _ _ _ Hr) as [s' [t' [Hs _]]].
  rewrite Hs. simpl. eauto.
Qed.

End Main.

(** ** Steps that tolerate a failure *)

Section BestEffort.
Context `{Platform}.



(** X13: the one-time code is written to the log in clear: once
    [pyotp.TOTP(secret).now()] has returned a code, the run logs it at
    level INFO before it looks for the field. *)
Theorem totp_code_is_logged (secret : str) (d : WebDriver) (s s1 : State)
    (token : str) :
  do (TOTP_now secret) s = (s1, Normal token) ->
  exists t,
    trace (enter_totp secret d s).1 =
      trace s ++ Called (TOTP_now secret)
              :: Logged INFO (py "生成 2FA 验证码: " ++ token) :: t.
Proof.
  intros Htotp. unfold enter_totp. unfold bind at 1. rewrite Htotp.
  assert (Hs1 : trace s1 = trace s ++ [Called (TOTP_now secret)]).
  { unfold do in Htotp. destruct (respond _ (world s)) as [w [e|r]];
      injection Htotp as <-; reflexivity. }
  match goal with
  | |- context [bind (log ?l ?m) ?k s1] =>
    change (bind (log l m) k s1)
      with (k tt (mkState (world s1) (trace s1 ++ [Logged l m]) (driver s1)))
  end.
  cbn beta.
  match goal with
  | |- context [trace (?m ?s0).1] =>
    assert (Hrest : emits (fun _ => True) m)
  end.
  { repeat first [apply emits_click_submit; auto | emits_step
                 | progress autounfold with script]. }
  match goal with
  | |- context [trace (?m ?s0).1] => destruct (Hrest s0) as [t [Ht _]]
  end.
  rewrite Ht. cbn [trace]. rewrite Hs1. exists t. rewrite <- !app_assoc. reflexivity.
Qed.
End BestEffort.

Lemma totp_code_is_logged_witness :
  In (Logged INFO (py "生成 2FA 验证码: " ++ py "492039"))
     (trace (enter_totp (H := site usual) (py "JBSWY3DPEHPK3PXP") 100
               (mkState (H := site usual) GithubTwoFactor [] (Some 100))).1).
Proof.
  destruct (@totp_code_is_logged (site usual) (py "JBSWY3DPEHPK3PXP") 100
              (mkState (H := site usual) GithubTwoFactor [] (Some 100))
              (do (H := site usual) (TOTP_now (py "JBSWY3DPEHPK3PXP"))
                 (mkState (H := site usual) GithubTwoFactor [] (Some 100))).1
              (py "492039")) as [t Ht].
  - vm_compute. reflexivity.
  - rewrite Ht. right. left. reflexivity.
Defined.

(** ** The password and the rest of the run *)

(** X14: apart from the text passed to [send_keys], nothing a run does
    depends on the password.  Two runs on hosts that differ only in the
    value of GH_PASSWORD (non-empty after stripping in both), in front of
    the same browser, make the same calls in the same order, write the
    same log lines and sleep the same; in particular the password is never
    logged and never posted. *)
Theorem password_only_reaches_send_keys `{Platform} (h1 h2 : Host) (w : World) :
  oblivious ->
  same_but_password h1 h2 ->
  password_of h1 <> [] -> password_of h2 <> [] ->
  List.map blank (trace (run_login h1 w).1) = List.map blank (trace (run_login h2 w).1) /\
  world (run_login h1 w).1 = world (run_login h2 w).1.
Proof.
  intros Hobl Hsame Hp1 Hp2.
  destruct (agree_run_login_body Hobl h1 h2 Hsame Hp1 Hp2 (fresh w) (fresh w)
              (alike_refl _)) as [[Hw [_ Ht]] _].
  unfold run_login. fold (fresh w).
  destruct (run_login_body h1 (fresh w)) as [s1 c1].
  destruct (run_login_body h2 (fresh w)) as [s2 c2].
  cbn [fst snd] in Ht, Hw. destruct c1, c2; auto.
Qed.

Lemma password_only_reaches_send_keys_witness :
  List.map blank (trace (run_login (H := site usual) typical_host Blank).1)
  = List.map blank (trace (run_login (H := site usual) typical_host_other_password Blank).1).
Proof.
  apply (@password_only_reaches_send_keys (site usual)
           typical_host typical_host_other_password Blank).
  - intros e k1 k2 w. reflexivity.
  - split; [|split].
    + intros key Hk. unfold typical_host, typical_host_other_password, host_of.
      cbn [environ list_to_map foldr fst snd curry].
      rewrite !lookup_insert.
      repeat (case_decide; [try congruence; subst; try reflexivity|]); reflexivity.
    + reflexivity.
    + reflexivity.
  - vm_compute. discriminate.
  - vm_compute. discriminate.
Defined.

(** ** What is typed in a run *)

Section Types.
Context `{Platform}.

Lemma typed_keys_none (t : list event) : Forall not_typed t -> typed_keys t = [].
Proof.
  intros Ht. induction Ht as [|ev t Hev _ IH]; [reflexivity|].
  destruct ev as [c| | |]; try exact IH. destruct c; try exact IH. destruct Hev.
Qed.

Lemma types_silent {A} (m : M A) : emits not_typed m -> types (eq []) m.
Proof.
  intros Hm s. destruct (Hm s) as [t [Ht Hq]]. exists t. split; [exact Ht|].
  symmetry. apply typed_keys_none. exact Hq.
Qed.

Lemma types_conseq {A} (Q Q' : list (WebElement * str) -> Prop) (m : M A) :
  types Q m -> (forall k, Q k -> Q' k) -> types Q' m.
Proof. intros Hm HQ. eapply spec_conseq; [exact Hm|]. intros t c. apply HQ. Qed.

Lemma types_bind {A B} (Q1 Q2 Q : list (WebElement * str) -> Prop)
    (m : M A) (k : A -> M B) :
  types Q1 m -> (forall a, types Q2 (k a)) ->
  (forall k1 k2, Q1 k1 -> Q2 k2 -> Q (k1 ++ k2)) ->
  (forall k1, Q1 k1 -> Q k1) ->
  types Q (bind m k).
Proof.
  intros Hm Hk Happ Hstop.
  apply (spec_bind m k (fun t _ => Q1 (typed_keys t)) (fun _ t _ => Q2 (typed_keys t)));
    [exact Hm | exact Hk | | |]; cbn beta; auto.
  intros t1 a t2 c H1 H2. rewrite typed_keys_app. auto.
Qed.

Lemma types_try_except {A} (Q1 Q2 Q : list (WebElement * str) -> Prop)
    (body : M A) handler :
  types Q1 body -> (forall e, types Q2 (handler e)) ->
  (forall k1 k2, Q1 k1 -> Q2 k2 -> Q (k1 ++ k2)) ->
  (forall k1, Q1 k1 -> Q k1) ->
  types Q (try_except body handler).
Proof.
  intros Hm Hk Happ Hstop.
  apply (spec_try_except body handler (fun t _ => Q1 (typed_keys t))
           (fun _ t _ => Q2 (typed_keys t)));
    [exact Hm | exact Hk | | |]; cbn beta; auto.
  intros t1 a t2 c H1 H2. rewrite typed_keys_app. auto.
Qed.

Lemma types_try_finally {A} (Q : list (WebElement * str) -> Prop)
    (body : M A) final :
  types Q body -> types (eq []) final -> types Q (try_finally body final).
Proof.
  intros Hm Hf.
  apply (spec_try_finally body final (fun t _ => Q (typed_keys t))
           (fun t _ => [] = typed_keys t)); [exact Hm | exact Hf |]; cbn beta.
  intros t1 c1 t2 c2 H1 H2. rewrite typed_keys_app, <- H2, app_nil_r. exact H1.
Qed.

(** A silent statement in front of [k], or behind [m]. *)
Lemma types_after {A B} (Q : list (WebElement * str) -> Prop)
    (m : M A) (k : A -> M B) :
  emits not_typed m -> (forall a, types Q (k a)) -> Q [] -> types Q (bind m k).
Proof.
  intros Hm Hk Hnil. apply (types_bind (eq []) Q Q); [apply types_silent; exact Hm | exact Hk | |].
  - intros k1 k2 <- H2. exact H2.
  - intros k1 <-. exact Hnil.
Qed.

Lemma types_before {A B} (Q : list (WebElement * str) -> Prop)
    (m : M A) (k : A -> M B) :
  types Q m -> (forall a, emits not_typed (k a)) -> types Q (bind m k).
Proof.
  intros Hm Hk. apply (types_bind Q (eq []) Q); [exact Hm | | |].
  - intros a. apply types_silent. apply Hk.
  - intros k1 k2 H1 <-. rewrite app_nil_r. exact H1.
  - auto.
Qed.
End Types.

Ltac silent_walk :=
  repeat first [emits_step | progress autounfold with script].

Section Keys.
Context `{Platform}.
Variable h : Host.
Variables username password totp_secret now masked : str.
Variable options : Options.

Lemma not_typed_send_tg_message text : emits not_typed (send_tg_message h text).
Proof. unfold send_tg_message. silent_walk. Qed.

Lemma code_typed_nil : code_typed [].
Proof. exists 0, [], []. auto. Qed.

Lemma credentials_typed_nil : credentials_typed username password [].
Proof. left. reflexivity. Qed.

(** Lines 192-211: the body of the inner [try] of step 4 and its
    handler. *)
Lemma login_form_keys (d : WebDriver) :
  types (credentials_typed username password)
    (try_except
      (username_field <- do (until d 10 (presence_of_element_located
                               (ID (py "login_field")))) ;;
       do (clear username_field) ;;
       do (send_keys username_field username) ;;
       sleep (uniform 5 15) ;;
       password_field <- do (find_element d (ID (py "password"))) ;;
       do (clear password_field) ;;
       do (send_keys password_field password) ;;
       sleep (uniform 5 15) ;;
       login_btn <- do (find_element d (CSS_SELECTOR (py "input[name='commit']"))) ;;
       do (click login_btn) ;;
       log INFO (py "已提交登录表单") ;;
       sleep (randint 3 5))
      (fun e => log ERROR (py "填写登录表单失败: " ++ exc_text e))).
Proof.
  intros s.
  match goal with
  | |- context [trace (?m s).1] => destruct (m s) as [s' c] eqn:Hrun
  end.
  cbn [fst snd]. unfold try_except at 1 in Hrun.
  step_do Hrun; [|step_do Hrun; [|step_do Hrun; [|step_emit Hrun;
    step_do Hrun; [|step_do Hrun; [|step_do Hrun; [|step_emit Hrun;
    step_do Hrun; [|step_do Hrun; [|step_emit Hrun]]]]]]]];
    last_emit Hrun; injection Hrun as <- <-; cbn [trace]; rewrite <- ?app_assoc;
    cbn [app]; eexists; (split; [reflexivity|]); unfold credentials_typed;
    cbn [typed_keys omap]; eauto.
Qed.

Lemma fill_login_keys (d : WebDriver) :
  types (credentials_typed username password) (fill_login username password d).
Proof.
  unfold fill_login.
  do 3 (apply types_after; [silent_walk | intro; cbn beta | apply credentials_typed_nil]).
  match goal with |- types _ (if ?b then _ else _) => destruct b end.
  - apply types_after; [silent_walk | intro | apply credentials_typed_nil].
    apply login_form_keys.
  - apply spec_ret. apply credentials_typed_nil.
Qed.

(** The typing loop, the submission and what lies between. *)
Lemma enter_totp_keys (d : WebDriver) : types code_typed (enter_totp totp_secret d).
Proof.
  unfold enter_totp.
  apply types_after; [silent_walk | intros token; cbn beta | apply code_typed_nil].
  apply types_after; [silent_walk | intros _; cbn beta | apply code_typed_nil].
  apply types_after; [silent_walk | intros totp_field; cbn beta | apply code_typed_nil].
  apply types_after; [silent_walk | intros _; cbn beta | apply code_typed_nil].
  apply types_after; [silent_walk | intros _; cbn beta | apply code_typed_nil].
  apply (types_bind (fun k => exists chars, k = one_by_one totp_field chars)
           (fun k => k = [] \/ exists field', k = [(field', Keys_RETURN)])).
  - eapply spec_conseq; [apply (type_loop totp_field token)|]. cbn beta.
    intros t c [_ [[_ Hk] | [e [n [_ Hk]]]]]; eauto.
  - intros _.
    apply types_after; [silent_walk | intros _; cbn beta | auto].
    apply types_after; [silent_walk | intros _; cbn beta | auto].
    apply types_before; [|intros _; silent_walk].
    eapply spec_conseq; [apply (submit_totp_spec d)|]. cbn beta.
    intros t c [_ [Hk | [field' [Hk _]]]]; eauto.
  - intros k1 k2 [chars ->] Hk2. exists totp_field, chars, k2. auto.
  - intros k1 [chars ->]. exists totp_field, chars, []. rewrite app_nil_r. auto.
Qed.

Lemma check_2fa_keys (d : WebDriver) :
  types code_typed (check_2fa h totp_secret now masked d).
Proof.
  unfold check_2fa.
  apply types_after; [silent_walk | intros _; cbn beta | apply code_typed_nil].
  apply types_after; [silent_walk | intros b; cbn beta | apply code_typed_nil].
  destruct b; [|apply spec_ret; apply code_typed_nil].
  apply types_after; [silent_walk | intros _; cbn beta | apply code_typed_nil].
  apply types_after; [| intros _; cbn beta | apply code_typed_nil].
  { destruct (negb (truthy totp_secret));
      repeat first [apply not_typed_send_tg_message | emits_step | unfold log]. }
  apply (types_try_except code_typed (eq []) code_typed).
  - apply enter_totp_keys.
  - intros e. apply types_silent.
    repeat first [apply not_typed_send_tg_message | emits_step | unfold log].
  - intros k1 k2 H1 <-. rewrite app_nil_r. exact H1.
  - auto.
Qed.

Lemma run_typed_nil : run_typed username password [].
Proof. exists [], []. split; [reflexivity|]. split; [left; reflexivity | apply code_typed_nil]. Qed.

Lemma login_flow_keys :
  types (run_typed username password) (login_flow h username password totp_secret now masked options).
Proof.
  unfold login_flow. apply types_before.
  2:{ intros [u p]. unfold report_result.
      repeat first [apply not_typed_send_tg_message | emits_step | unfold log]. }
  unfold flow_to_result.
  apply (types_bind (credentials_typed username password) code_typed).
  - unfold flow_to_2fa.
    apply types_after; [silent_walk | intros d; cbn beta | apply credentials_typed_nil].
    apply types_after; [silent_walk | intros _; cbn beta | apply credentials_typed_nil].
    apply types_after; [silent_walk | intros _; cbn beta | apply credentials_typed_nil].
    apply types_before; [apply fill_login_keys | intros _; silent_walk].
  - intros d. apply types_before; [apply check_2fa_keys | intros _; silent_walk].
  - intros k1 k2 H1 H2. exists k1, k2. auto.
  - intros k1 H1. exists k1, []. rewrite app_nil_r. split; [reflexivity|].
    split; [exact H1 | apply code_typed_nil].
Qed.

Lemma browser_session_keys :
  types (run_typed username password) (browser_session h username password totp_secret now masked options).
Proof.
  unfold browser_session.
  apply types_after; [silent_walk | intros _; cbn beta | apply run_typed_nil].
  apply types_try_finally; [|apply types_silent; silent_walk].
  apply (types_try_except (run_typed username password) (eq []) (run_typed username password)).
  - apply login_flow_keys.
  - intros e. apply types_silent. unfold on_exception.
    repeat first [apply not_typed_send_tg_message | emits_step
                 | unfold log, log_exception].
  - intros k1 k2 H1 <-. rewrite app_nil_r. exact H1.
  - auto.
Qed.
End Keys.

(** X15: the keys sent to the page over a whole run are, in this
    order: at most the user name and then the password, each at most once
    and the password never without the user name before it; then single
    characters sent to one field; then at most one RETURN.  Nothing else is
    ever typed, on any path. *)
Theorem keys_typed_in_a_run `{Platform} (h : Host) (w : World) :
  run_typed (username_of h) (password_of h) (typed_keys (trace (run_login h w).1)).
Proof.
  assert (Hbody : types (run_typed (username_of h) (password_of h)) (run_login_body h)).
  { unfold run_login_body. apply types_after; [| |apply run_typed_nil].
    - unfold preamble.
      repeat first [apply not_typed_send_tg_message | emits_step | unfold log].
    - intros [masked options]. apply browser_session_keys. }
  destruct (Hbody (fresh w)) as [t [Ht Hq]]. cbn [trace fresh app] in Ht.
  rewrite run_login_finish.
  destruct (run_login_body h (fresh w)) as [s [a|v|e]]; cbn [fst snd finish] in *;
    rewrite Ht; exact Hq.
Qed.

(** ** A failure while the 2FA code is entered (lines 292-303) *)

(** X16: when the 2FA page is detected, a secret is configured and
    entering the code raises (the secret is not valid base32, the field
    does not appear, a key cannot be sent), [run_login] logs the 2FA
    failure message, which contains the text of the exception, passes it
    to [send_tg_message], attempts the screenshot clawcloud_2fa_fail.png
    and returns False. *)
Theorem totp_failure_is_reported `{Platform} (h : Host) (w : World)
    (s0 s1 s2 s3 : State) (masked : str) (options : Options) (d : WebDriver)
    (e : Exception) :
  preamble h (fresh w) = (s0, Normal (masked, options)) ->
  flow_to_2fa h (username_of h) (password_of h) options s0 = (s1, Normal d) ->
  (sleep (secs 20) ;; on_2fa_page d) s1 = (s2, Normal true) ->
  totp_secret_of h <> [] ->
  (log INFO (py "[Step 5] 检测到 2FA 验证") ;; enter_totp (totp_secret_of h) d) s2
    = (s3, Raise e) ->
  exists s' t,
    run_login h w = (s', inr (Some false)) /\
    trace s' = trace s3 ++ Logged ERROR (msg_2fa_failed masked (strftime_now h) e)
                 :: SendTg (msg_2fa_failed masked (strftime_now h) e) :: t /\
    contains (exc_text e) (msg_2fa_failed masked (strftime_now h) e) = true /\
    In (Called (save_screenshot d fail_png)) t.
Proof.
  intros Hp Hf Hd Hsecret He.
  assert (Hcontains :
            contains (exc_text e) (msg_2fa_failed masked (strftime_now h) e) = true).
  { unfold msg_2fa_failed, failure_head, account_and_time.
    repeat apply contains_app_r. apply contains_refl. }
  rewrite (run_login_session h w s0 masked options Hp).
  assert (Hc : exists s4 t c,
             check_2fa h (totp_secret_of h) (strftime_now h) masked d s1 = (s4, c) /\
             (c = Return false \/ exists e', c = Raise e') /\
             trace s4 = trace s3 ++ Logged ERROR (msg_2fa_failed masked (strftime_now h) e)
                         :: SendTg (msg_2fa_failed masked (strftime_now h) e) :: t /\
             In (Called (save_screenshot d fail_png)) t).
  { unfold check_2fa. destruct (totp_secret_of h) as [|c0 secret]; [congruence|].
    cbn [truthy negb].
    unfold bind at 1 2. unfold bind at 1 in Hd. unfold sleep, emit in *.
    rewrite Hd. cbn beta iota.
    unfold bind at 1 in He. unfold log, emit in He. cbn beta iota in He.
    unfold bind at 1. unfold log at 1, emit at 1. cbn beta iota.
    unfold bind at 1. unfold ret at 1. cbn beta iota.
    unfold try_except at 1. rewrite He.
    unfold bind at 1. unfold log at 1, emit at 1. cbn beta iota.
    unfold bind at 1.
    match goal with
    | |- context [send_tg_message h ?m ?s5] =>
      destruct (send_tg_message_run h m s5) as [w1 [t [Ht _]]]; rewrite Ht
    end.
    unfold bind at 1. unfold do at 1. cbn [world trace driver].
    unfold fail_png.
    destruct (respond (save_screenshot d _) w1) as [w2 [e'|r]];
      eexists _, _, _; (split; [reflexivity|]); cbn [trace];
      (split; [eauto|]); rewrite <- !app_assoc; cbn [app];
      (split; [reflexivity|]); apply in_or_app; right; left; reflexivity. }
  destruct Hc as [s4 [t [c [Hc [Habrupt [Ht Hin]]]]]].
  rewrite <- (preamble_fresh h w s0 masked options Hp) in Hf.
  destruct Habrupt as [-> | [e' ->]].
  - edestruct (session_after_return h masked (strftime_now h) (username_of h)
                 (password_of h) (totp_secret_of h) options s0 s4 false)
      as [s' [t' [Hs [Ht' _]]]].
    { unfold login_flow, flow_to_result. unfold bind at 1 2. rewrite Hf.
      unfold bind. rewrite Hc. reflexivity. }
    rewrite Hs. simpl. eexists _, (t ++ t'). split; [reflexivity|].
    split; [rewrite Ht', Ht, <- app_assoc; reflexivity|].
    split; [exact Hcontains|]. apply in_or_app. auto.
  - edestruct (session_after_raise h masked (strftime_now h) (username_of h)
                 (password_of h) (totp_secret_of h) options s0 s4 e')
      as [s' [t1 [t2 [Hs [Ht' _]]]]].
    { unfold login_flow, flow_to_result. unfold bind at 1 2. rewrite Hf.
      unfold bind. rewrite Hc. reflexivity. }
    rewrite Hs. simpl. eexists _, (t ++ _). split; [reflexivity|].
    split; [rewrite Ht', Ht, <- app_assoc; reflexivity|].
    split; [exact Hcontains|]. apply in_or_app. auto.
Qed.

Lemma totp_failure_is_reported_witness :
  exists s',
    run_login (H := site_bad_secret) typical_host Blank = (s', inr (Some false)) /\
    In (SendTg (msg_2fa_failed (py "oct***@example.com") (py "2026-01-01 08:00:00")
                  binascii_Error)) (trace s').
Proof.
  pose (P := site_bad_secret).
  pose (o := chrome_options (py "/usr/bin/chromium")).
  pose (m := py "oct***@example.com").
  pose (s0 := (preamble (H := P) typical_host (fresh Blank)).1).
  pose (s1 := (flow_to_2fa (H := P) typical_host (username_of typical_host)
                 (password_of typical_host) o s0).1).
  pose (s2 := ((sleep (H := P) (secs 20) ;; on_2fa_page 100) s1).1).
  pose (s3 := ((log (H := P) INFO (py "[Step 5] 检测到 2FA 验证") ;;
                enter_totp (totp_secret_of typical_host) 100) s2).1).
  destruct (@totp_failure_is_reported P typical_host Blank s0 s1 s2 s3 m o 100
              binascii_Error) as [s' [t [Hr [Ht _]]]].
  - vm_compute. reflexivity.
  - vm_compute. reflexivity.
  - vm_compute. reflexivity.
  - vm_compute. discriminate.
  - vm_compute. reflexivity.
  - unfold P in *. exists s'. split; [exact Hr|]. rewrite Ht.
    apply in_or_app. right. right. left. reflexivity.
Defined.

(** ** How many notifications a run sends *)

Section Said.
Context `{Platform}.
Variable h : Host.
Variables username password totp_secret now masked : str.
Variable options : Options.

Local Abbreviation says Q m := (spec m (fun t c => Q (notifications t) c)).

Lemma quiet_spec {A} (m : M A) :
  emits not_send_tg m -> never_returns m ->
  spec m (fun t c => notifications t = [] /\ forall v, c <> Return v).
Proof.
  intros Hm Hnr s. destruct (Hm s) as [t [Ht Hq]]. exists t. split; [exact Ht|].
  split; [apply notifications_quiet; exact Hq | apply Hnr].
Qed.

Lemma says_quiet {A} (m : M A) :
  emits not_send_tg m -> never_returns m -> says (walk_said masked now) m.
Proof.
  intros Hm Hnr. eapply spec_conseq; [apply (quiet_spec m Hm Hnr)|].
  intros t [a|v|e] [-> Hc]; simpl; auto. destruct (Hc v eq_refl).
Qed.

Lemma says_bind {A B} (m : M A) (k : A -> M B) :
  says (walk_said masked now) m -> (forall a, says (walk_said masked now) (k a)) ->
  says (walk_said masked now) (bind m k).
Proof.
  intros Hm Hk.
  apply (spec_bind m k (fun t c => walk_said masked now (notifications t) c)
           (fun _ t c => walk_said masked now (notifications t) c));
    [exact Hm | exact Hk | | |]; cbn beta; auto.
  intros t1 a t2 c H1 H2. simpl in H1. rewrite notifications_app, H1. exact H2.
Qed.

Lemma says_try_except {A} (body : M A) handler :
  emits not_send_tg body -> never_returns body ->
  (forall e, says (walk_said masked now) (handler e)) ->
  says (walk_said masked now) (try_except body handler).
Proof.
  intros Hm Hnr Hk.
  apply (spec_try_except body handler
           (fun t c => notifications t = [] /\ forall v, c <> Return v)
           (fun _ t c => walk_said masked now (notifications t) c));
    [apply quiet_spec; assumption | exact Hk | | |]; cbn beta.
  - intros t1 e t2 c [H1 _] H2. rewrite notifications_app, H1. exact H2.
  - intros t a [H1 _]. exact H1.
  - intros t v [_ H1]. destruct (H1 v eq_refl).
Qed.

(** The tail shared by the two early exits of the 2FA step. *)
Lemma says_notify (msg path : str) d (l : level) :
  two_factor_message masked now msg ->
  says (walk_said masked now)
    (log l msg ;; send_tg_message h msg ;; do (save_screenshot d path) ;;
     return_ (A := unit) false).
Proof.
  intros Hmsg s.
  match goal with
  | |- context [trace (?m s).1] => destruct (m s) as [s' c] eqn:Hrun
  end.
  destruct (notify_and_return _ _ _ _ _ _ _ _ Hrun) as [Hc [t [Ht Hq]]].
  cbn [fst snd]. eexists. split; [exact Ht|].
  change (Logged l msg :: SendTg msg :: t) with ([Logged l msg] ++ SendTg msg :: t).
  rewrite notifications_app.
  change (notifications (SendTg msg :: t)) with (msg :: notifications t).
  rewrite (notifications_quiet t Hq).
  destruct Hc as [-> | [e ->]]; simpl; eauto.
Qed.

Lemma says_check_2fa d : says (walk_said masked now) (check_2fa h totp_secret now masked d).
Proof.
  unfold check_2fa.
  apply says_bind; [apply says_quiet; [emits_walk; exact I | nr_walk]|intros _].
  apply says_bind.
  { apply says_quiet; [apply emits_on_2fa_page; intros; exact I | apply nr_on_2fa_page]. }
  intros [|]; [|apply says_quiet; [emits_walk | nr_walk]].
  apply says_bind; [apply says_quiet; [emits_walk; exact I | nr_walk]|intros _].
  apply says_bind.
  { destruct (negb (truthy totp_secret)).
    - apply says_notify. left. reflexivity.
    - apply says_quiet; [emits_walk | nr_walk]. }
  intros _. apply says_try_except.
  - apply emits_enter_totp; intros; exact I.
  - apply nr_enter_totp.
  - intros e. apply says_notify. right. exists e. reflexivity.
Qed.

Lemma says_flow_to_result :
  says (walk_said masked now)
    (flow_to_result h username password totp_secret now masked options).
Proof.
  unfold flow_to_result. apply says_bind.
  { apply says_quiet; [apply emits_flow_to_2fa; intros; exact I | apply nr_flow_to_2fa]. }
  intros d. apply says_bind; [apply says_check_2fa|intros _].
  apply says_bind.
  { apply says_quiet; [apply emits_check_authorize; intros; exact I
                      | apply nr_check_authorize]. }
  intros _. apply says_quiet; [apply emits_read_result; intros; exact I
                              | apply nr_read_result].
Qed.

Lemma says_login_flow :
  says (flow_said masked now)
    (login_flow h username password totp_secret now masked options).
Proof.
  unfold login_flow.
  apply (spec_bind _ _ (fun t c => walk_said masked now (notifications t) c)
           (fun _ t c => flow_said masked now (notifications t) c));
    [apply says_flow_to_result | | | |]; cbn beta.
  - intros [u p] s.
    destruct (report_result_run h masked now u p s) as [w [t [Hr Hq]]].
    rewrite Hr. cbn [fst snd trace]. eexists. split; [reflexivity|].
    change (?x :: SendTg ?m :: t) with ([x] ++ SendTg m :: t).
    rewrite notifications_app.
    match goal with
    | |- context [SendTg ?m :: t] =>
      change (notifications (SendTg m :: t)) with (m :: notifications t)
    end.
    rewrite (notifications_tg_effect t Hq). simpl. eexists. split; [reflexivity|].
    destruct (classify u p); [apply classified_success | apply classified_failure].
  - intros t1 a t2 c H1 H2. simpl in H1. rewrite notifications_app, H1. exact H2.
  - intros t v [-> [msg [Hm Ht]]]. simpl. exists msg. split; [exact Hm|].
    destruct Ht as [-> | [e ->]];
      [apply two_factor_without_secret | apply two_factor_fill_failure].
  - intros t e H1. exact H1.
Qed.

Lemma says_session :
  says (session_said masked now)
    (browser_session h username password totp_secret now masked options).
Proof.
  unfold browser_session.
  apply (spec_bind _ _ (fun t (c : completion unit) => notifications t = [] /\ exists a, c = Normal a)
           (fun _ t c => session_said masked now (notifications t) c)); cbn beta.
  - intros s. exists []. simpl. rewrite app_nil_r. eauto.
  - intros _.
    apply (spec_try_finally _ _
             (fun t c => session_said masked now (notifications t) c)
             (fun t (c : completion unit) => notifications t = [] /\ c = Normal tt)).
    + apply (spec_try_except _ _
               (fun t c => flow_said masked now (notifications t) c)
               (fun e t (c : completion unit) =>
                  notifications t = [msg_exception masked now e] /\ c = Return false));
        [apply says_login_flow | | | |]; cbn beta.
      * intros e s. destruct (on_exception_run h masked now e s) as [w [t [Hr Hq]]].
        rewrite Hr. cbn [fst snd trace]. eexists. split; [reflexivity|].
        split; [|reflexivity].
        rewrite !notifications_app. simpl. rewrite (notifications_tg_effect t Hq).
        destruct (driver s); reflexivity.
      * intros t1 e t2 c H1 [H2 ->]. simpl in H1. rewrite notifications_app, H2.
        destruct H1 as [-> | [msg [-> Hm]]]; simpl.
        -- left. eexists. split; [reflexivity|]. apply caught_exception.
        -- right. exists msg, e. auto.
      * intros t a [].
      * intros t v H1. left. exact H1.
    + intros s. destruct (close_browser_run s) as [w [t [Hr Hq]]].
      rewrite Hr. cbn [fst snd trace]. exists t. split; [reflexivity|].
      split; [apply notifications_closing; exact Hq | reflexivity].
    + intros t1 c1 t2 c2 H1 [H2 ->]. rewrite notifications_app, H2, app_nil_r. exact H1.
  - intros t1 a t2 c [H1 _] H2. rewrite notifications_app, H1. exact H2.
  - intros t v [_ [a Ha]]. discriminate.
  - intros t e [_ [a Ha]]. discriminate.
Qed.
End Said.


